(** * basic_web_server: request decoding, header store and connection worker

    A shallow embedding of [slib/request.c] and [src/server.c], and the
    properties of the request decoder, the header store, the connection
    worker and the accept loop that hold (or fail) on that code.

    Conventions of the embedding.
    - A [char] is an [ascii]; a run of memory is a [list ascii].
    - A [char *] that the code obtained from [strdup] or from a token is
      represented by the characters before its terminating NUL.  The one
      pointer that designates raw memory is [req_buf]: it is represented by
      the array object it points to, and reading a string from it looks for
      the NUL inside that object.
    - A C function whose behaviour can be undefined returns an [outcome].
    - The header table is GLib's [GHashTable] keyed with [g_str_hash] and
      [g_str_equal]: a finite map from strings to strings. *)

From Stdlib Require Import ZArith Ascii String.
From stdpp Require Import base option list gmap strings.

Open Scope Z_scope.

(** ** Characters and strings *)

Abbreviation bytes := (list ascii).

Definition NUL : ascii := Ascii.ascii_of_nat 0.
Definition LF : ascii := Ascii.ascii_of_nat 10.
Definition CR : ascii := Ascii.ascii_of_nat 13.
Definition SP : ascii := Ascii.ascii_of_nat 32.
Definition COLON : ascii := Ascii.ascii_of_nat 58.

Definition CRLF : bytes := [CR; LF].

(** The characters of a string literal of the source. *)
Definition str (s : string) : bytes := list_ascii_of_string s.

(** ** Undefined behaviour *)

Inductive fault :=
  | NullDereference      (* a null pointer is read through *)
  | ReadPastObject       (* a string is read beyond the end of its array *)
  | WritePastObject      (* a string is written beyond the end of its array *)
  | NoSuchThread.        (* a thread id that names no joinable thread is used *)

Inductive outcome (A : Type) :=
  | Ret (a : A)
  | Undefined (f : fault).
Arguments Ret {A} a.
Arguments Undefined {A} f.

#[global] Instance outcome_ret : MRet outcome := λ A (a : A), Ret a.
#[global] Instance outcome_bind : MBind outcome := λ A B (k : A → outcome B) m,
  match m with
  | Ret a => k a
  | Undefined f => Undefined f
  end.

(** ** The C library, as far as the code uses it *)

(** The string that starts at the beginning of the array object [mem]: its
    characters up to the first NUL.  An object that holds no NUL makes the
    reader run off its end. *)
Fixpoint c_str (mem : bytes) : outcome bytes :=
  match mem with
  | [] => Undefined ReadPastObject
  | c :: mem' =>
      if decide (c = NUL) then Ret []
      else s ← c_str mem'; Ret (c :: s)
  end.

(** [strdup] of a pointer into raw memory and of a string value.  The copy
    is taken to be made: the code never tests what [strdup] returns, and
    running out of memory inside it is left out of the model. *)
Definition strdup_mem (p : option bytes) : outcome bytes :=
  match p with
  | None => Undefined NullDereference
  | Some mem => c_str mem
  end.

Definition strdup (p : option bytes) : outcome bytes :=
  match p with
  | None => Undefined NullDereference
  | Some s => Ret s
  end.

(** [strspn]-style skipping of leading delimiters. *)
Fixpoint skip_delims (delim s : bytes) : bytes :=
  match s with
  | [] => []
  | c :: s' => if bool_decide (c ∈ delim) then skip_delims delim s' else s
  end.

(** The token at the head of [s] and what follows its delimiter.  When the
    token runs to the end of the string nothing follows. *)
Fixpoint scan_token (delim s : bytes) : bytes * bytes :=
  match s with
  | [] => ([], [])
  | c :: s' =>
      if bool_decide (c ∈ delim) then ([], s')
      else let '(tok, rest) := scan_token delim s' in (c :: tok, rest)
  end.

(** [strtok(str, delim)].  The function keeps a pointer between calls; it is
    passed in as [save] and returned with the token.  A null [str] continues
    from [save]. *)
Definition strtok (str : option bytes) (delim : bytes) (save : bytes)
  : option bytes * bytes :=
  let s := skip_delims delim (default save str) in
  match s with
  | [] => (None, [])
  | _ :: _ => let '(tok, rest) := scan_token delim s in (Some tok, rest)
  end.

(** [strcmp(a, b) == 0]. *)
Definition streq (a b : bytes) : bool := bool_decide (a = b).

(** ** include/request.h *)

Definition REQ_BUF_SIZE : Z := 8192.

(** Where a [char *] field points: into a block of its own made by
    [strdup], or to whatever [get_config_str] handed out. *)
Inductive cptr :=
  | Heap (s : bytes)
  | Conf (s : bytes).

Definition chars (p : cptr) : bytes :=
  match p with Heap s => s | Conf s => s end.

Record request := mk_request {
  conn_fd : Z;
  http_method : option cptr;
  url : option cptr;
  http_ver : option cptr;
  header_htab : option (gmap bytes bytes)
}.

(** ** slib/request.c *)

Definition g_hash_table_insert (h : option (gmap bytes bytes)) (k v : bytes)
  : option (gmap bytes bytes) :=
  (λ m, <[k := v]> m) <$> h.

Definition g_hash_table_lookup (h : option (gmap bytes bytes)) (k : bytes)
  : option bytes :=
  m ← h; m !! k.

(** [_initialize_request].  [malloc_ok] tells whether [malloc] returns a
    block.  GLib's table constructor does not return null. *)
Definition _initialize_request (malloc_ok : bool) : option request :=
  if malloc_ok then
    Some {| conn_fd := -1; http_method := None; url := None;
            http_ver := None; header_htab := Some ∅ |}
  else None.

(** The [while] loop of [_parse_request].  Every round consumes at least
    one character of [save], so [fuel] rounds suffice when [fuel] exceeds
    the length of [save]. *)
Fixpoint parse_headers (fuel : nat) (save : bytes)
    (htab : option (gmap bytes bytes)) : option (gmap bytes bytes) :=
  match fuel with
  | O => htab
  | S fuel' =>
      match strtok None [COLON] save with
      | (None, _) => htab
      | (Some header_key, save1) =>
          match strtok None [CR] save1 with
          | (None, _) => htab
          | (Some header_val, save2) =>
              let key := tail header_key in
              let value := tail header_val in
              parse_headers fuel' save2 (g_hash_table_insert htab key value)
          end
      end
  end.

Definition _parse_request (req_buf : option bytes) (req : option request)
  : outcome (Z * option request) :=
  match req_buf, req with
  | None, _ => Ret (0, req)
  | _, None => Ret (0, req)
  | Some _, Some r =>
      req_buff ← strdup_mem req_buf;
      let '(tok1, save1) := strtok (Some req_buff) [SP] [] in
      method ← strdup tok1;
      let '(tok2, save2) := strtok None [SP] save1 in
      target ← strdup tok2;
      let '(tok3, save3) := strtok None [CR] save2 in
      version ← strdup tok3;
      let htab := parse_headers (S (length save3)) save3 (header_htab r) in
      Ret (1, Some {| conn_fd := conn_fd r;
                      http_method := Some (Heap method);
                      url := Some (Heap target);
                      http_ver := Some (Heap version);
                      header_htab := htab |})
  end.

Definition parse_request (malloc_ok : bool) (req_buf : option bytes) (fd : Z)
  : outcome (option request) :=
  match _initialize_request malloc_ok with
  | None => Ret None
  | Some req0 =>
      let req := {| conn_fd := fd; http_method := http_method req0;
                    url := url req0; http_ver := http_ver req0;
                    header_htab := header_htab req0 |} in
      '(rc, req') ← _parse_request req_buf (Some req);
      if rc =? 0 then Ret None else Ret req'
  end.

(** [recv] into the array [req_buf] of [REQ_BUF_SIZE] characters: at most
    that many characters of [data] are stored at its start.  The array is a
    local variable that nothing initialises; [garbage] gives what its
    characters held before. *)
Definition recv_into (garbage : nat → ascii) (data : bytes) : bytes :=
  let got := take (Z.to_nat REQ_BUF_SIZE) data in
  got ++ (garbage <$> seq (length got) (Z.to_nat REQ_BUF_SIZE - length got)).

(** [get_request].  [rx] is what [recv] finds on the connection: nothing
    when it returns a negative value, else the characters that arrived. *)
Definition get_request (malloc_ok : bool) (garbage : nat → ascii)
    (rx : option bytes) (fd : Z) : outcome (option request) :=
  match rx with
  | None => Ret None
  | Some data => parse_request malloc_ok (Some (recv_into garbage data)) fd
  end.

(** [strcpy(dst, src)] into the array object [dst]. *)
Definition strcpy (dst src : bytes) : outcome bytes :=
  if bool_decide (length src < length dst)%nat
  then Ret (src ++ NUL :: drop (S (length src)) dst)
  else Undefined WritePastObject.

(** [get_request_header].  The result pairs the returned pointer with the
    state of the caller's buffer [header_val] after the call. *)
Definition get_request_header (req : option request)
    (header_key : option bytes) (header_val : option bytes)
  : outcome (option bytes * option bytes) :=
  match req, header_key with
  | None, _ => Ret (None, header_val)
  | _, None => Ret (None, header_val)
  | Some r, Some key =>
      match g_hash_table_lookup (header_htab r) key with
      | Some _header_val =>
          match header_val with
          | Some buf =>
              buf' ← strcpy buf _header_val;
              Ret (Some _header_val, Some buf')
          | None => Ret (Some _header_val, None)
          end
      | None => Ret (None, header_val)
      end
  end.

(** ** Resources and what is done to them *)

(** An open stream of the document root. *)
Record FILE := mk_FILE { f_path : bytes; f_data : bytes }.

Inductive block :=
  | BConnArg                          (* the [int] that [main] allocates *)
  | BRequest                          (* a [struct request] *)
  | BString (p : cptr)                (* the target of a [char *] field *)
  | BTable (t : gmap bytes bytes)     (* a header table, keys and values *)
  | BResponse.                        (* a response and its header block *)

Inductive event :=
  | EvSend (fd : Z) (data : bytes)    (* characters written to a connection *)
  | EvClose (fd : Z)
  | EvFopen (path : bytes)
  | EvFclose (f : FILE)
  | EvFree (b : block)
  | EvPrintf (line : bytes)
  | EvPerror (msg : bytes)
  | EvThread (fd : Z).                (* a worker started on a connection *)

#[global] Instance cptr_eq_dec : EqDecision cptr.
Proof. solve_decision. Defined.
#[global] Instance FILE_eq_dec : EqDecision FILE.
Proof. solve_decision. Defined.
#[global] Instance block_eq_dec : EqDecision block.
Proof. solve_decision. Defined.
#[global] Instance event_eq_dec : EqDecision event.
Proof. solve_decision. Defined.

(** How often [e] happens in a sequence of events. *)
Definition times (e : event) (events : list event) : nat :=
  length (filter (λ x, x = e) events).

(** A run of code that acts on the world: the events it caused, in order,
    and its result, or the fault at which it left defined behaviour. *)
Inductive run (A : Type) :=
  | Done (a : A) (events : list event)
  | Fault (f : fault) (events : list event).
Arguments Done {A} a events.
Arguments Fault {A} f events.

#[global] Instance run_ret : MRet run := λ A (a : A), Done a [].
#[global] Instance run_bind : MBind run := λ A B (k : A → run B) m,
  match m with
  | Done a events =>
      match k a with
      | Done b events' => Done b (events ++ events')
      | Fault f events' => Fault f (events ++ events')
      end
  | Fault f events => Fault f events
  end.

Definition emit (e : event) : run unit := Done () [e].

(** A step that causes no event. *)
Definition eval {A} (m : outcome A) : run A :=
  match m with
  | Ret a => Done a []
  | Undefined f => Fault f []
  end.

(** Reading through a pointer. *)
Definition deref {A} (p : option A) : outcome A :=
  match p with
  | None => Undefined NullDereference
  | Some a => Ret a
  end.

(** [free(p)] for a [char *] field, after the test [p != NULL]. *)
Definition free_string (p : option cptr) : run unit :=
  match p with
  | Some q => emit (EvFree (BString q))
  | None => mret ()
  end.

(** [_free_request]. *)
Definition _free_request (req : option request) : run unit :=
  match req with
  | None => mret ()
  | Some r =>
      _ ← match header_htab r with
          | Some t => emit (EvFree (BTable t))
          | None => mret ()
          end;
      _ ← free_string (http_method r);
      _ ← free_string (url r);
      _ ← free_string (http_ver r);
      emit (EvFree BRequest)
  end.

(** [close_request]. *)
Definition close_request (req : option request) : run unit :=
  r ← eval (deref req);
  r ← (if bool_decide (conn_fd r ≠ -1)
       then _ ← emit (EvClose (conn_fd r));
            mret {| conn_fd := -1; http_method := http_method r;
                    url := url r; http_ver := http_ver r;
                    header_htab := header_htab r |}
       else mret r);
  _free_request (Some r).

(** ** The collaborators of [src/server.c] *)

(** Modelled from the spec: [response.h], the type of a response, is not
    among the sources.  A response is bound to the connection handle of its
    request and does not own the request; it holds a status line and an
    ordered collection of header pairs, duplicates allowed. *)
Record response := mk_response {
  res_conn_fd : Z;
  status_code : option bytes;
  res_headers : list (bytes * bytes)
}.

(** Modelled from the spec: [create_response_from_request] of
    [slib/response.c] allocates a response bound to the connection handle of
    the request. *)
Definition create_response_from_request (req : request) : response :=
  {| res_conn_fd := conn_fd req; status_code := None; res_headers := [] |}.

(** The assignment [res->status_code = s]. *)
Definition set_status_code (res : response) (s : bytes) : response :=
  {| res_conn_fd := res_conn_fd res; status_code := Some s;
     res_headers := res_headers res |}.

(** Modelled from the spec: [set_response_header] of [slib/response.c] adds
    a pair at the end of the pending header block. *)
Definition set_response_header (res : response) (name value : bytes)
  : response :=
  {| res_conn_fd := res_conn_fd res; status_code := status_code res;
     res_headers := res_headers res ++ [(name, value)] |}.

(** Modelled from the spec: the header block that [send_response_header]
    writes is the status line, each header as [Name: Value] with a line
    terminator, and a blank line. *)
Definition header_block (res : response) : bytes :=
  default [] (status_code res) ++ CRLF
  ++ concat ((λ h, h.1 ++ [COLON; SP] ++ h.2 ++ CRLF) <$> res_headers res)
  ++ CRLF.

(** Modelled from the spec: writing to a connection is not retried, and a
    partial write is a failure.  The peer takes [room] more characters
    before the connection fails; the result is the verdict and the room
    that is left. *)
Definition send_all (fd : Z) (data : bytes) (room : nat) : run (bool * nat) :=
  if bool_decide (length data ≤ room)%nat
  then Done (true, (room - length data)%nat) [EvSend fd data]
  else Done (false, O) [EvSend fd (take room data)].

(** Modelled from the spec: [send_response_header] of [slib/response.c]. *)
Definition send_response_header (res : response) (room : nat)
  : run (bool * nat) :=
  send_all (res_conn_fd res) (header_block res) room.

(** Modelled from the spec: [send_response_file] of [slib/response.c]
    writes the contents of the stream after the header block. *)
Definition send_response_file (res : response) (file : FILE) (room : nat)
  : run (bool * nat) :=
  send_all (res_conn_fd res) (f_data file) room.

(** Modelled from the spec: [close_response] of [slib/response.c] releases
    the response with its header block.  The stream that the worker has
    closed itself is not closed again, and the connection belongs to the
    request. *)
Definition close_response (res : response) : run unit :=
  emit (EvFree BResponse).

(** What surrounds one worker.  The configuration ([config.h]) and the
    resource-type table ([mimetypes.h]) are read-only lookups that are not
    among the sources; the worker takes their answers from here, as it takes
    the state of the memory, of the network and of the file system. *)
Record world := mk_world {
  malloc_ok : bool;                (* [malloc] of the request succeeds *)
  garbage : nat → ascii;           (* what [req_buf] held before *)
  rx : option bytes;               (* what [recv] finds *)
  page : bytes;                    (* [get_config_str(PAGE_CONF_KEY)] *)
  site_dir : bytes;                (* [get_config_str(SITE_DIR_CONF_KEY)] *)
  files : bytes → option bytes;    (* the files that can be opened *)
  mimetype : bytes → bytes;        (* [get_mimetype_for_url(url, NULL)] *)
  tx_room : nat;                   (* characters the peer still takes *)
  strerror_errno : bytes           (* [strerror(errno)] after a failed send *)
}.

Definition fopen (w : world) (path : bytes) : option FILE :=
  mk_FILE path <$> files w path.

(** ** src/server.c *)

Definition FILE_PATH_BUF_SIZE : Z := 1024.
Definition SERVER_NAME : bytes := str "ElServe/2.0".

(** [sprintf(file_path, "%s%s", a, b)] into an array of [cap] characters:
    the two strings and a terminator have to fit. *)
Definition sprintf2 (cap : Z) (a b : bytes) : outcome bytes :=
  if bool_decide (Z.of_nat (length (a ++ b)) < cap)
  then Ret (a ++ b)
  else Undefined WritePastObject.

(** [clean_request]. *)
Definition clean_request (file : option FILE) (req : option request)
    (res : option response) : run unit :=
  _ ← match file with
      | Some f => emit (EvFclose f)
      | None => mret ()
      end;
  _ ← match req with
      | Some _ => close_request req
      | None => mret ()
      end;
  match res with
  | Some r => close_response r
  | None => mret ()
  end.

(** [handle_request]: the worker on the connection whose handle [main] put
    in the cell [new_conn_fd]. *)
Definition handle_request (w : world) (new_conn_fd : Z) : run unit :=
  let fd := new_conn_fd in
  _ ← emit (EvFree BConnArg);
  req ← eval (get_request (malloc_ok w) (garbage w) (rx w) fd);
  r ← eval (deref req);
  target ← eval (deref (url r));
  r ← (if streq (chars target) (str "/")
       then _ ← emit (EvFree (BString target));
            mret {| conn_fd := conn_fd r;
                    http_method := http_method r;
                    url := Some (Conf (page w));
                    http_ver := http_ver r;
                    header_htab := header_htab r |}
       else mret r);
  method ← eval (deref (http_method r));
  target ← eval (deref (url r));
  version ← eval (deref (http_ver r));
  _ ← emit (EvPrintf (str "> (" ++ chars method ++ str ") ("
                      ++ chars target ++ str ") ("
                      ++ chars version ++ str ")" ++ [LF]));
  file_path ← eval (sprintf2 FILE_PATH_BUF_SIZE (site_dir w) (chars target));
  _ ← emit (EvFopen file_path);
  match fopen w file_path with
  | None => clean_request None (Some r) None
  | Some file =>
      let res := create_response_from_request r in
      let res := set_status_code res (str "200 OK") in
      let res := set_response_header res (str "content-type")
                   (mimetype w (chars target)) in
      let res := set_response_header res (str "server") SERVER_NAME in
      '(sent, room) ← send_response_header res (tx_room w);
      if negb sent then clean_request (Some file) (Some r) (Some res)
      else
        '(sent, _) ← send_response_file res file room;
        if negb sent then
          _ ← emit (EvPrintf (str "Error Sending File: " ++ file_path
                              ++ str " for URL: " ++ chars target
                              ++ str ". " ++ strerror_errno w ++ [LF]));
          clean_request (Some file) (Some r) (Some res)
        else clean_request (Some file) (Some r) (Some res)
  end.

(** One round of the accept loop of [main], given what the calls of that
    round return.  [pthread_create] returns zero when the thread was started
    and an error number, which is positive, when it was not. *)
Record round := mk_round {
  accept_ret : Z;
  cell_ok : bool;              (* [malloc(sizeof(int))] succeeds *)
  pthread_create_ret : Z;
  pthread_detach_ret : Z
}.

(** [pthread_create]: a thread runs [handle_request] when the call returns
    zero. *)
Definition pthread_create (r : round) (fd : Z) : run Z :=
  if pthread_create_ret r =? 0
  then Done (pthread_create_ret r) [EvThread fd]
  else Done (pthread_create_ret r) [].

(** [pthread_detach(tid)]: [tid] names a joinable thread only if the call of
    [pthread_create] in this round has set it. *)
Definition pthread_detach (r : round) : run Z :=
  if pthread_create_ret r =? 0
  then mret (pthread_detach_ret r)
  else Fault NoSuchThread [].

(** The body of [while(true)]; every way through it ends in [continue] or
    at the end of the body. *)
Definition accept_round (r : round) : run unit :=
  let conn_fd := accept_ret r in
  if conn_fd <? 0 then
    emit (EvPerror (str "Unable to accept new connection"))
  else
    _ ← eval (if cell_ok r then Ret () else Undefined NullDereference);
    created ← pthread_create r conn_fd;
    if created <? 0 then
      _ ← emit (EvPerror (str "Unable to create new thread"));
      _ ← emit (EvClose conn_fd);
      emit (EvFree BConnArg)
    else
      detached ← pthread_detach r;
      if negb (detached =? 0)
      then emit (EvPerror (str "Unable to detach new thread"))
      else mret ().

(** The loop over the rounds that the environment offers.  The loop has no
    exit of its own: after the last round offered it is back at [accept]. *)
Fixpoint accept_loop (rounds : list round) : run unit :=
  match rounds with
  | [] => mret ()
  | r :: rounds' => _ ← accept_round r; accept_loop rounds'
  end.

(** ** The wire format of a request

    The layout of section 6 of the specification: a request line, then
    header lines, each closed by CR LF. *)

Definition request_line (method target version : bytes) : bytes :=
  method ++ SP :: target ++ SP :: version ++ CRLF.

Definition header_line (h : bytes * bytes) : bytes :=
  h.1 ++ COLON :: SP :: h.2 ++ CRLF.

Definition header_lines (hs : list (bytes * bytes)) : bytes :=
  concat (header_line <$> hs).

(** The table after the pairs [hs] were inserted in order into [tab]. *)
Definition inserted (hs : list (bytes * bytes)) (tab : gmap bytes bytes)
  : gmap bytes bytes :=
  foldl (λ t h, <[h.1 := h.2]> t) tab hs.

(** A non-empty run of characters free of the delimiter [d]. *)
Definition token (d : ascii) (s : bytes) : Prop := s ≠ [] ∧ d ∉ s.

(** What the decoder needs of a header pair to cut it where the line does:
    no colon in the name, no carriage return in the value. *)
Definition splits (h : bytes * bytes) : Prop :=
  (COLON ∉ fst h) ∧ (CR ∉ snd h).

(** The path that the worker builds for a target: the default page stands
    in for the root path, and the document root is put in front. *)
Definition resolved (w : world) (target : bytes) : bytes :=
  site_dir w ++ (if streq target (str "/") then page w else target).

(** ** Worlds and inputs for the examples *)

(** A document root [./site] that holds [index.html], a stack that happens
    to hold zeros, a peer that takes everything. *)
Definition example_world (arrives : option bytes) : world :=
  {| malloc_ok := true;
     garbage := λ _, NUL;
     rx := arrives;
     page := str "/index.html";
     site_dir := str "./site";
     files := λ path, if bool_decide (path = str "./site/index.html")
                      then Some (str "<html></html>") else None;
     mimetype := λ _, str "text/html";
     tx_room := Z.to_nat 65536;
     strerror_errno := str "Broken pipe" |}.

(** A target that is longer than the array for the path. *)
Definition long_target : bytes :=
  str "/" ++ replicate (Z.to_nat 1100) (Ascii.ascii_of_nat 97).

Definition wire_example : bytes :=
  str "GET /x HTTP/1.1" ++ CRLF ++ str "Host: a" ++ CRLF ++ [NUL].

(** ** src/server.c, the start and the end of the server *)






(** ** Inputs and outcomes for the further properties *)

(** Strings that hold fewer than three tokens in all: nothing but spaces, one
    token, or two tokens with at most carriage returns after the space that
    ends the second. *)
Inductive short_of_tokens : bytes → Prop :=
  | no_token (n : nat) : short_of_tokens (replicate n SP)
  | one_token (m : bytes) (n : nat) :
      token SP m → short_of_tokens (m ++ replicate n SP)
  | two_tokens (m t : bytes) :
      token SP m → token SP t → short_of_tokens (m ++ SP :: t)
  | two_tokens_cr (m t : bytes) (n : nat) :
      token SP m → token SP t →
      short_of_tokens (m ++ SP :: t ++ SP :: replicate n CR).

(** What holds of every name and value that the header loop stores. *)
Definition clean_pair (name value : bytes) : Prop :=
  (COLON ∉ name) ∧ (NUL ∉ name) ∧ (CR ∉ value) ∧ (NUL ∉ value).

(** The events of a run, however it ended. *)
Definition events_of {A} (m : run A) : list event :=
  match m with
  | Done _ events => events
  | Fault _ events => events
  end.

(** The connections on which a worker was started, in order. *)
Definition threads (events : list event) : list Z :=
  omap (λ e, if e is EvThread fd then Some fd else None) events.

(** * Properties *)

(** Brings a concatenation into the shape [a ++ c :: b ++ ...]. *)
Ltac flatten :=
  repeat (rewrite <- app_assoc || rewrite <- app_comm_cons || rewrite app_nil_l).

(** ** The model at work *)

Example strtok_first_token :
  strtok (Some (str "GET /x")) [SP] [] = (Some (str "GET"), str "/x").
Proof. reflexivity. Qed.

Example strtok_skips_delimiters :
  strtok None [SP] (str "  a b") = (Some (str "a"), str "b").
Proof. reflexivity. Qed.

Example strtok_last_token :
  strtok None [CR] (str "HTTP/1.1") = (Some (str "HTTP/1.1"), []).
Proof. reflexivity. Qed.

Example strtok_exhausted : strtok None [COLON] [] = (None, []).
Proof. reflexivity. Qed.

Example decode_wire_example :
  parse_request true (Some wire_example) 4
  = Ret (Some {| conn_fd := 4;
                 http_method := Some (Heap (str "GET"));
                 url := Some (Heap (str "/x"));
                 http_ver := Some (Heap (str "HTTP/1.1"));
                 header_htab := Some {[ str "Host" := str "a" ]} |}).
Proof. vm_compute. reflexivity. Qed.

Example serve_default_page :
  ∃ events,
    handle_request
      (example_world (Some (str "GET / HTTP/1.1" ++ CRLF ++ CRLF))) 4
    = Done () events
    ∧ EvFopen (str "./site/index.html") ∈ events
    ∧ EvSend 4 (str "<html></html>") ∈ events
    ∧ times (EvClose 4) events = 1%nat.
Proof.
  eexists. split; [vm_compute; reflexivity|].
  split; [|split]; [| |reflexivity];
    apply list_elem_of_In; simpl; repeat (first [left; reflexivity|right]).
Qed.

(** ** Strings and tokens *)

Lemma c_str_terminated (s junk : bytes) :
  NUL ∉ s → c_str (s ++ NUL :: junk) = Ret s.
Proof.
  induction s as [|c s IH]; intros Hs; cbn [app c_str].
  - by rewrite decide_True.
  - apply not_elem_of_cons in Hs as [Hc Hs].
    rewrite decide_False by done. by rewrite IH.
Qed.

Lemma c_str_unterminated (mem : bytes) :
  NUL ∉ mem → c_str mem = Undefined ReadPastObject.
Proof.
  induction mem as [|c mem IH]; intros Hs; cbn [c_str]; [done|].
  apply not_elem_of_cons in Hs as [Hc Hs].
  rewrite decide_False by done. by rewrite IH.
Qed.

Lemma skip_delims_start (d c : ascii) (s : bytes) :
  c ≠ d → skip_delims [d] (c :: s) = c :: s.
Proof.
  intros Hc. simpl. rewrite bool_decide_eq_false_2; [done|].
  by rewrite list_elem_of_singleton.
Qed.

Lemma scan_token_delim (d : ascii) (tok rest : bytes) :
  d ∉ tok → scan_token [d] (tok ++ d :: rest) = (tok, rest).
Proof.
  induction tok as [|c tok IH]; intros Htok; simpl.
  - rewrite bool_decide_eq_true_2; [done|]. by apply list_elem_of_singleton.
  - apply not_elem_of_cons in Htok as [Hc Htok].
    rewrite bool_decide_eq_false_2.
    + by rewrite IH.
    + rewrite list_elem_of_singleton. congruence.
Qed.

Lemma scan_token_end (d : ascii) (tok : bytes) :
  d ∉ tok → scan_token [d] tok = (tok, []).
Proof.
  induction tok as [|c tok IH]; intros Htok; simpl; [done|].
  apply not_elem_of_cons in Htok as [Hc Htok].
  rewrite bool_decide_eq_false_2.
  - by rewrite IH.
  - rewrite list_elem_of_singleton. congruence.
Qed.

(** A token that is followed by its delimiter: [strtok] returns it and
    keeps the position after the delimiter. *)
Lemma strtok_delim (d : ascii) (tok rest save : bytes) (from : option bytes) :
  default save from = tok ++ d :: rest →
  tok ≠ [] → d ∉ tok →
  strtok from [d] save = (Some tok, rest).
Proof.
  intros Hfrom Hne Htok. unfold strtok. rewrite Hfrom. clear Hfrom.
  destruct tok as [|c tok]; [done|].
  pose proof Htok as Htok'. apply not_elem_of_cons in Htok' as [Hc _].
  change ((c :: tok) ++ d :: rest) with (c :: (tok ++ d :: rest)).
  rewrite skip_delims_start by congruence.
  change (c :: (tok ++ d :: rest)) with ((c :: tok) ++ d :: rest).
  by rewrite scan_token_delim.
Qed.

(** A token that runs to the end of the string. *)
Lemma strtok_end (d : ascii) (tok save : bytes) (from : option bytes) :
  default save from = tok →
  tok ≠ [] → d ∉ tok →
  strtok from [d] save = (Some tok, []).
Proof.
  intros Hfrom Hne Htok. unfold strtok. rewrite Hfrom. clear Hfrom.
  destruct tok as [|c tok]; [done|].
  pose proof Htok as Htok'. apply not_elem_of_cons in Htok' as [Hc _].
  rewrite skip_delims_start by congruence.
  by rewrite scan_token_end.
Qed.

Lemma skip_delims_length (delim s : bytes) :
  (length (skip_delims delim s) ≤ length s)%nat.
Proof.
  induction s as [|c s IH]; simpl; [done|].
  case_bool_decide; simpl; lia.
Qed.

Lemma scan_token_length (delim s : bytes) :
  (length (scan_token delim s).2 ≤ length s)%nat.
Proof.
  induction s as [|c s IH]; simpl; [done|].
  case_bool_decide; simpl; [lia|].
  destruct (scan_token delim s) as [tok rest]. simpl in *. lia.
Qed.

(** A call that finds a token moves the saved position forward. *)
Lemma strtok_progress (delim save tok save' : bytes) :
  strtok None delim save = (Some tok, save') →
  (length save' < length save)%nat.
Proof.
  unfold strtok. simpl.
  pose proof (skip_delims_length delim save) as Hskip.
  destruct (skip_delims delim save) as [|c s] eqn:Hs; [done|].
  pose proof (scan_token_length delim (c :: s)) as Hscan.
  destruct (scan_token delim (c :: s)) as [tok' rest] eqn:Hsc.
  intros [= <- <-]. simpl in *.
  revert Hsc. case_bool_decide.
  - intros [= <- <-]. lia.
  - pose proof (scan_token_length delim s) as Hscan'.
    destruct (scan_token delim s) as [tok'' rest'']. intros [= <- <-].
    simpl in *. lia.
Qed.

(** ** The header loop *)

Lemma parse_headers_fuel (fuel1 fuel2 : nat) (save : bytes)
    (htab : option (gmap bytes bytes)) :
  (length save < fuel1)%nat → (length save < fuel2)%nat →
  parse_headers fuel1 save htab = parse_headers fuel2 save htab.
Proof.
  revert fuel2 save htab.
  induction fuel1 as [|fuel1 IH]; intros [|fuel2] save htab H1 H2; try lia.
  simpl.
  destruct (strtok None [COLON] save) as [[key|] save1] eqn:Hkey; [|done].
  apply strtok_progress in Hkey.
  destruct (strtok None [CR] save1) as [[val|] save2] eqn:Hval; [|done].
  apply strtok_progress in Hval.
  apply IH; lia.
Qed.

(** One round on a name and a value that split where the line does: the
    character before the name and the one before the value are dropped. *)
Lemma parse_headers_round (fuel : nat) (c0 c1 : ascii) (h : bytes * bytes)
    (rest : bytes) (htab : option (gmap bytes bytes)) :
  c0 ≠ COLON → c1 ≠ CR → splits h →
  parse_headers (S fuel) (c0 :: h.1 ++ COLON :: c1 :: h.2 ++ CR :: rest) htab
  = parse_headers fuel rest (g_hash_table_insert htab h.1 h.2).
Proof.
  intros Hc0 Hc1 [Hname Hvalue]. cbn [parse_headers].
  rewrite (strtok_delim COLON (c0 :: h.1) (c1 :: h.2 ++ CR :: rest));
    [|done|done|].
  - rewrite (strtok_delim CR (c1 :: h.2) rest); [done|done|done|].
    apply not_elem_of_cons. split; [congruence|done].
  - apply not_elem_of_cons. split; [congruence|done].
Qed.

(** Text without a colon ends the loop: the name token swallows it and no
    value token is left. *)
Lemma parse_headers_last (fuel : nat) (c0 : ascii) (trail : bytes)
    (htab : option (gmap bytes bytes)) :
  c0 ≠ COLON → COLON ∉ trail →
  parse_headers fuel (c0 :: trail) htab = htab.
Proof.
  intros Hc0 Htrail. destruct fuel as [|fuel]; [done|]. cbn [parse_headers].
  rewrite (strtok_end COLON (c0 :: trail)); [done|done|done|].
  apply not_elem_of_cons. split; [congruence|done].
Qed.

Lemma header_lines_cons (h : bytes * bytes) (hs : list (bytes * bytes)) :
  header_lines (h :: hs) = h.1 ++ COLON :: SP :: h.2 ++ CR :: LF :: header_lines hs.
Proof.
  unfold header_lines, header_line, CRLF. cbn [fmap list_fmap concat].
  rewrite <- app_assoc. f_equal. simpl. by rewrite <- app_assoc.
Qed.

Lemma header_lines_app (hs hs' : list (bytes * bytes)) :
  header_lines (hs ++ hs') = header_lines hs ++ header_lines hs'.
Proof. unfold header_lines. by rewrite fmap_app, concat_app. Qed.

(** The loop stores every header line of a block whose pairs split, and
    stops at text without a colon that follows the block. *)
Lemma parse_headers_lines (hs : list (bytes * bytes)) (trail : bytes)
    (fuel : nat) (tab : gmap bytes bytes) :
  Forall splits hs → COLON ∉ trail →
  (length (LF :: header_lines hs ++ trail) < fuel)%nat →
  parse_headers fuel (LF :: header_lines hs ++ trail) (Some tab)
  = Some (inserted hs tab).
Proof.
  intros Hhs Htrail. revert fuel tab.
  induction Hhs as [|h hs Hh Hhs IH]; intros fuel tab Hfuel.
  - by apply parse_headers_last.
  - destruct fuel as [|fuel]; [simpl in Hfuel; lia|].
    rewrite header_lines_cons in *. revert Hfuel. flatten. intros Hfuel.
    rewrite parse_headers_round; [|done|done|done].
    cbn [g_hash_table_insert fmap option_fmap option_map inserted foldl].
    apply IH. revert Hfuel. rewrite !length_cons, !length_app, !length_cons.
    rewrite !length_app, !length_cons, length_app. lia.
Qed.

(** ** The request decoder *)

(** The three tokens of the request line.  Whatever follows the carriage
    return that ends the third token is left to the header loop. *)
Lemma decode_request_line (method target version rest junk : bytes) (fd : Z) :
  token SP method → token SP target → token CR version →
  NUL ∉ method ++ SP :: target ++ SP :: version ++ CR :: rest →
  parse_request true
    (Some (method ++ SP :: target ++ SP :: version ++ CR :: rest ++ NUL :: junk)) fd
  = Ret (Some {| conn_fd := fd;
                 http_method := Some (Heap method);
                 url := Some (Heap target);
                 http_ver := Some (Heap version);
                 header_htab := parse_headers (S (length rest)) rest (Some ∅) |}).
Proof.
  intros [Hm1 Hm2] [Ht1 Ht2] [Hv1 Hv2] Hnul.
  unfold parse_request, _initialize_request, _parse_request, strdup_mem.
  replace (method ++ SP :: target ++ SP :: version ++ CR :: rest ++ NUL :: junk)
    with ((method ++ SP :: target ++ SP :: version ++ CR :: rest) ++ NUL :: junk)
    by (by flatten).
  rewrite c_str_terminated by done.
  cbn [mbind outcome_bind].
  rewrite (strtok_delim SP method (target ++ SP :: version ++ CR :: rest));
    [|done|done|done].
  cbn [strdup mbind outcome_bind].
  rewrite (strtok_delim SP target (version ++ CR :: rest)); [|done|done|done].
  cbn [strdup mbind outcome_bind].
  by rewrite (strtok_delim CR version rest).
Qed.

(** Decoding a buffer laid out as the wire format says: three tokens on the
    request line, header pairs that split, then text without a colon (none,
    or the blank line) and a NUL. *)
Lemma decode_wire_format (method target version : bytes)
    (hs : list (bytes * bytes)) (trail junk : bytes) (fd : Z) :
  token SP method → token SP target → token CR version →
  Forall splits hs → COLON ∉ trail →
  NUL ∉ request_line method target version ++ header_lines hs ++ trail →
  parse_request true
    (Some (request_line method target version ++ header_lines hs ++ trail
           ++ NUL :: junk)) fd
  = Ret (Some {| conn_fd := fd;
                 http_method := Some (Heap method);
                 url := Some (Heap target);
                 http_ver := Some (Heap version);
                 header_htab := Some (inserted hs ∅) |}).
Proof.
  intros Hm Ht Hv Hhs Htrail Hnul.
  pose proof (decode_request_line method target version
                (LF :: header_lines hs ++ trail) junk fd Hm Ht Hv) as Hline.
  revert Hnul Hline. unfold request_line, CRLF. flatten. intros Hnul Hline.
  rewrite Hline by done.
  rewrite parse_headers_lines; [done|done|done|lia].
Qed.

(** ** The header store *)

Lemma inserted_lookup_None (hs : list (bytes * bytes))
    (tab : gmap bytes bytes) (k : bytes) :
  inserted hs tab !! k = None ↔ (k ∉ hs.*1) ∧ (tab !! k = None).
Proof.
  revert tab. induction hs as [|[n x] hs IH]; intros tab; simpl.
  - split; [intros H; split; [apply not_elem_of_nil|done] | by intros [_ H]].
  - rewrite IH, not_elem_of_cons, lookup_insert_None. simpl.
    intuition congruence.
Qed.

(** The last line written for a name is the one that is found. *)
Lemma inserted_lookup_last (hs hs' : list (bytes * bytes))
    (tab : gmap bytes bytes) (n x : bytes) :
  n ∉ hs'.*1 → inserted (hs ++ (n, x) :: hs') tab !! n = Some x.
Proof.
  intros Hn. unfold inserted. rewrite foldl_app. simpl.
  fold (inserted hs tab).
  generalize (inserted hs tab). intros tab'.
  fold (inserted hs' (<[n:=x]> tab')).
  destruct (inserted hs' (<[n:=x]> tab') !! n) as [y|] eqn:Hy.
  - revert tab' Hy. induction hs' as [|[n' x'] hs' IH]; intros tab' Hy; simpl in *.
    + by rewrite lookup_insert_eq in Hy.
    + apply not_elem_of_cons in Hn as [Hne Hn]. simpl in Hne.
      rewrite (insert_insert_ne tab') in Hy by done. by apply IH in Hy.
  - apply inserted_lookup_None in Hy as [_ Hy].
    by rewrite lookup_insert_eq in Hy.
Qed.

Lemma get_request_header_found (r : request) (tab : gmap bytes bytes)
    (k v : bytes) :
  header_htab r = Some tab → tab !! k = Some v →
  get_request_header (Some r) (Some k) None = Ret (Some v, None).
Proof.
  intros Htab Hk. unfold get_request_header, g_hash_table_lookup.
  rewrite Htab. simpl. by rewrite Hk.
Qed.

Lemma get_request_header_missing (r : request) (tab : gmap bytes bytes)
    (k : bytes) (header_val : option bytes) :
  header_htab r = Some tab → tab !! k = None →
  get_request_header (Some r) (Some k) header_val = Ret (None, header_val).
Proof.
  intros Htab Hk. unfold get_request_header, g_hash_table_lookup.
  rewrite Htab. simpl. by rewrite Hk.
Qed.

(** Decides a closed statement about characters and strings. *)
Ltac by_evaluation := apply (bool_decide_unpack _); vm_compute; exact I.

(** ** Decoding a well-formed request *)

(** C3.  A buffer that holds a request line of three tokens and one header
    line, as in ["GET /x HTTP/1.1\r\nHost: a\r\n"], decodes: the call
    returns a request whose method, target and version are the three tokens
    and in whose header store the name of the line leads to its value. *)
Theorem decode_well_formed (method target version name value junk : bytes)
    (fd : Z) :
  token SP method → token SP target → token CR version →
  splits (name, value) →
  NUL ∉ request_line method target version ++ header_line (name, value) →
  ∃ req,
    parse_request true
      (Some (request_line method target version ++ header_line (name, value)
             ++ NUL :: junk)) fd = Ret (Some req)
    ∧ conn_fd req = fd
    ∧ http_method req = Some (Heap method)
    ∧ url req = Some (Heap target)
    ∧ http_ver req = Some (Heap version)
    ∧ get_request_header (Some req) (Some name) None = Ret (Some value, None).
Proof.
  intros Hm Ht Hv Hh Hnul.
  pose proof (decode_wire_format method target version [(name, value)] []
                junk fd Hm Ht Hv) as Hdec.
  unfold header_lines in Hdec. cbn [fmap list_fmap concat] in Hdec.
  rewrite !app_nil_r in Hdec. rewrite app_nil_l in Hdec.
  eexists. split; [apply Hdec|].
  - by apply Forall_singleton.
  - apply not_elem_of_nil.
  - done.
  - repeat split; try reflexivity.
    eapply get_request_header_found; [reflexivity|].
    apply lookup_insert_eq.
Qed.

Lemma decode_well_formed_witness :
  ∃ req,
    parse_request true
      (Some (str "GET /x HTTP/1.1" ++ CRLF ++ str "Host: a" ++ CRLF ++ [NUL])) 4
      = Ret (Some req)
    ∧ conn_fd req = 4
    ∧ http_method req = Some (Heap (str "GET"))
    ∧ url req = Some (Heap (str "/x"))
    ∧ http_ver req = Some (Heap (str "HTTP/1.1"))
    ∧ get_request_header (Some req) (Some (str "Host")) None
      = Ret (Some (str "a"), None).
Proof.
  apply (decode_well_formed (str "GET") (str "/x") (str "HTTP/1.1")
           (str "Host") (str "a") [] 4); by_evaluation.
Defined.

(** C8.  Lookup matches the name exactly, case included.  In the store of
    a request that has the header line [name: value], with any header lines
    before it and any lines for other names after it, [name] is found, and a
    key that is the name of none of the lines, such as the same word in
    another case, is not. *)
Theorem header_lookup_exact (method target version : bytes)
    (hs hs' : list (bytes * bytes)) (name value key junk : bytes) (fd : Z) :
  token SP method → token SP target → token CR version →
  Forall splits (hs ++ (name, value) :: hs') →
  NUL ∉ request_line method target version
        ++ header_lines (hs ++ (name, value) :: hs') →
  name ∉ hs'.*1 →
  key ∉ (hs ++ (name, value) :: hs').*1 →
  ∃ req,
    parse_request true
      (Some (request_line method target version
             ++ header_lines (hs ++ (name, value) :: hs') ++ NUL :: junk)) fd
      = Ret (Some req)
    ∧ get_request_header (Some req) (Some name) None = Ret (Some value, None)
    ∧ get_request_header (Some req) (Some key) None = Ret (None, None).
Proof.
  intros Hm Ht Hv Hhs Hnul Hname Hkey.
  pose proof (decode_wire_format method target version
                (hs ++ (name, value) :: hs') [] junk fd Hm Ht Hv Hhs)
    as Hdec.
  rewrite app_nil_r, app_nil_l in Hdec.
  eexists. split; [apply Hdec; [apply not_elem_of_nil|done]|]. split.
  - eapply get_request_header_found; [reflexivity|].
    by apply inserted_lookup_last.
  - eapply get_request_header_missing; [reflexivity|].
    apply inserted_lookup_None. split; [done|apply lookup_empty].
Qed.

Lemma header_lookup_exact_witness :
  ∃ req,
    parse_request true
      (Some (request_line (str "GET") (str "/x") (str "HTTP/1.1")
             ++ header_lines ([] ++ [(str "Host", str "a")]) ++ [NUL])) 4
      = Ret (Some req)
    ∧ get_request_header (Some req) (Some (str "Host")) None
      = Ret (Some (str "a"), None)
    ∧ get_request_header (Some req) (Some (str "host")) None
      = Ret (None, None).
Proof.
  apply (header_lookup_exact (str "GET") (str "/x") (str "HTTP/1.1") [] []
           (str "Host") (str "a") (str "host") [] 4); by_evaluation.
Defined.

(** ** Request lines with fewer than three tokens *)

(** C1, as stated, fails: a request line with only a method and a target
    does not make decoding fail when text follows it.  The tokenizer does not
    stop at the end of the line, and a request is produced whose target runs
    into the next line. *)
Lemma two_token_line_decodes :
  parse_request true
    (Some (str "GET /x" ++ CRLF ++ str "Host: a" ++ CRLF ++ [NUL])) 4
  = Ret (Some {| conn_fd := 4;
                 http_method := Some (Heap (str "GET"));
                 url := Some (Heap (str "/x" ++ CRLF ++ str "Host:"));
                 http_ver := Some (Heap (str "a"));
                 header_htab := Some ∅ |}).
Proof. vm_compute. reflexivity. Qed.

(** C1, amended.  When the request line holds a method and a target only
    and the text after its line terminator goes on with a run [more] free of
    spaces, a space, and a non-empty run [next] closed by a carriage return,
    decoding does not fail: the request has the method of the line, the
    target joined with the line terminator and [more], and [next] as its
    version. *)
Theorem short_request_line_decodes (method target more next rest junk : bytes)
    (fd : Z) :
  token SP method → SP ∉ target → SP ∉ more → token CR next →
  NUL ∉ method ++ SP :: target ++ CRLF ++ more ++ SP :: next ++ CR :: rest →
  ∃ req,
    parse_request true
      (Some (method ++ SP :: target ++ CRLF ++ more ++ SP :: next ++ CR :: rest
             ++ NUL :: junk)) fd = Ret (Some req)
    ∧ http_method req = Some (Heap method)
    ∧ url req = Some (Heap (target ++ CRLF ++ more))
    ∧ http_ver req = Some (Heap next).
Proof.
  intros Hm Ht Hmore Hnext Hnul.
  assert (token SP (target ++ CRLF ++ more)) as Htok.
  { split; [by destruct target|].
    rewrite !not_elem_of_app. repeat split; [done| |done].
    unfold CRLF. rewrite !not_elem_of_cons. repeat split; [done|done|].
    apply not_elem_of_nil. }
  pose proof (decode_request_line method (target ++ CRLF ++ more) next rest
                junk fd Hm Htok Hnext) as Hdec.
  revert Hnul Hdec. flatten. intros Hnul Hdec.
  eexists. split; [by apply Hdec|]. by repeat split.
Qed.

Lemma short_request_line_decodes_witness :
  ∃ req,
    parse_request true
      (Some (str "GET" ++ SP :: str "/x" ++ CRLF ++ str "Host:" ++ SP :: str "a"
             ++ CR :: [LF] ++ NUL :: [])) 4 = Ret (Some req)
    ∧ http_method req = Some (Heap (str "GET"))
    ∧ url req = Some (Heap (str "/x" ++ CRLF ++ str "Host:"))
    ∧ http_ver req = Some (Heap (str "a")).
Proof.
  apply (short_request_line_decodes (str "GET") (str "/x") (str "Host:")
           (str "a") [LF] [] 4); by_evaluation.
Defined.

(** The other way a short request line can go: when the whole buffer runs
    out of tokens, [strtok] returns a null pointer and [strdup] reads
    through it. *)
Lemma two_tokens_in_all :
  parse_request true (Some (str "GET /x" ++ CRLF ++ [NUL])) 4
  = Undefined NullDereference.
Proof. vm_compute. reflexivity. Qed.

(** ** Header lines without a colon *)

(** C4, as stated, fails: after a line without a colon the loop goes on, and
    a well-formed line further down is in the store. *)
Lemma header_after_malformed_line_stored :
  ∃ req,
    parse_request true
      (Some (str "GET /x HTTP/1.1" ++ CRLF ++ str "BadLine" ++ CRLF
             ++ str "Host: a" ++ CRLF ++ str "Accept: b" ++ CRLF ++ [NUL])) 4
      = Ret (Some req)
    ∧ get_request_header (Some req) (Some (str "Accept")) None
      = Ret (Some (str "b"), None).
Proof. eexists. split; vm_compute; reflexivity. Qed.

(** C4, amended.  A line without a colon that is followed by well-formed
    header lines neither stops the loop nor signals an error.  The line is
    taken, with its terminator, into the name of the header line that
    follows it, which is stored under the joined name; every header line
    after that one is stored as it would be without the malformed line, and
    is found by its name.  The loop stops where no colon is left. *)
Theorem colonless_line_joins_next (method target version : bytes)
    (before : list (bytes * bytes)) (bad : bytes) (h : bytes * bytes)
    (after : list (bytes * bytes)) (trail junk : bytes) (fd : Z) :
  token SP method → token SP target → token CR version →
  Forall splits before → COLON ∉ bad → splits h → Forall splits after →
  COLON ∉ trail →
  NUL ∉ request_line method target version ++ header_lines before
        ++ bad ++ CRLF ++ header_lines (h :: after) ++ trail →
  ∃ req,
    parse_request true
      (Some (request_line method target version ++ header_lines before
             ++ bad ++ CRLF ++ header_lines (h :: after) ++ trail
             ++ NUL :: junk)) fd
      = Ret (Some req)
    ∧ header_htab req
      = Some (inserted (before ++ (bad ++ CRLF ++ h.1, h.2) :: after) ∅)
    ∧ ∀ l1 name value l2,
        after = l1 ++ (name, value) :: l2 → name ∉ l2.*1 →
        get_request_header (Some req) (Some name) None
        = Ret (Some value, None).
Proof.
  intros Hm Ht Hv Hbefore Hbad [Hh1 Hh2] Hafter Htrail Hnul.
  pose proof (decode_wire_format method target version
                (before ++ (bad ++ CRLF ++ h.1, h.2) :: after) trail junk fd
                Hm Ht Hv) as Hdec.
  revert Hnul Hdec. rewrite header_lines_app, !header_lines_cons.
  unfold CRLF. simpl fst. simpl snd. flatten. intros Hnul Hdec.
  eexists. split; [apply Hdec; [|done|done]|].
  - apply Forall_app. split; [done|]. apply Forall_cons. split; [|done].
    split; [|done]. simpl. by rewrite not_elem_of_app, !not_elem_of_cons.
  - split; [reflexivity|]. intros l1 name value l2 -> Hname.
    eapply get_request_header_found; [reflexivity|].
    match goal with
    | |- inserted (?b ++ ?x :: ?l ++ ?y :: ?l') _ !! _ = _ =>
        replace (b ++ x :: l ++ y :: l') with ((b ++ x :: l) ++ y :: l')
          by (by rewrite <- app_assoc)
    end.
    by apply inserted_lookup_last.
Qed.

Lemma colonless_line_joins_next_witness :
  ∃ req,
    parse_request true
      (Some (request_line (str "GET") (str "/x") (str "HTTP/1.1")
             ++ header_lines [] ++ str "BadLine" ++ CRLF
             ++ header_lines [(str "Host", str "a"); (str "Accept", str "b")]
             ++ [] ++ NUL :: [])) 4
      = Ret (Some req)
    ∧ header_htab req
      = Some (inserted ([] ++ [(str "BadLine" ++ CRLF ++ str "Host", str "a");
                               (str "Accept", str "b")]) ∅)
    ∧ ∀ l1 name value l2,
        [(str "Accept", str "b")] = l1 ++ (name, value) :: l2 →
        name ∉ l2.*1 →
        get_request_header (Some req) (Some name) None
        = Ret (Some value, None).
Proof.
  apply (colonless_line_joins_next (str "GET") (str "/x") (str "HTTP/1.1")
           [] (str "BadLine") (str "Host", str "a") [(str "Accept", str "b")]
           [] [] 4); by_evaluation.
Defined.

(** ** The lookup function and its output buffer *)

(** C10, as stated, fails: a caller's buffer that is not null but too short
    for the stored value and its terminator is written past its end. *)
Lemma get_request_header_short_buffer :
  get_request_header
    (Some {| conn_fd := 4; http_method := None; url := None; http_ver := None;
             header_htab := Some {[ str "Host" := str "a" ]} |})
    (Some (str "Host")) (Some [NUL])
  = Undefined WritePastObject.
Proof. vm_compute. reflexivity. Qed.

(** C10, amended.  With a null request or a null header name the function
    returns null and leaves the caller's buffer alone, whatever the store
    holds.  When the name is found and the caller's buffer has room for the
    stored value and its terminator, the value is copied to the start of the
    buffer, terminated, and the stored value is returned. *)
Theorem get_request_header_contract :
  (∀ key buf, get_request_header None key buf = Ret (None, buf))
  ∧ (∀ req buf, get_request_header req None buf = Ret (None, buf))
  ∧ (∀ r tab key value buf,
       header_htab r = Some tab → tab !! key = Some value →
       (length value < length buf)%nat →
       get_request_header (Some r) (Some key) (Some buf)
       = Ret (Some value,
              Some (value ++ NUL :: drop (S (length value)) buf))).
Proof.
  split; [done|]. split; [by intros [r|] buf|].
  intros r tab key value buf Htab Hkey Hroom.
  unfold get_request_header, g_hash_table_lookup, strcpy.
  rewrite Htab. cbn [mbind option_bind]. rewrite Hkey.
  by rewrite bool_decide_eq_true_2.
Qed.

Lemma get_request_header_contract_witness :
  get_request_header
    (Some {| conn_fd := 4; http_method := None; url := None; http_ver := None;
             header_htab := Some {[ str "Host" := str "a" ]} |})
    (Some (str "Host")) (Some (str "????"))
  = Ret (Some (str "a"), Some (str "a" ++ NUL :: str "??")).
Proof.
  apply (proj2 (proj2 get_request_header_contract)
           {| conn_fd := 4; http_method := None; url := None; http_ver := None;
              header_htab := Some {[ str "Host" := str "a" ]} |}
           {[ str "Host" := str "a" ]} (str "Host") (str "a") (str "????")).
  - reflexivity.
  - vm_compute. reflexivity.
  - simpl. lia.
Defined.

(** ** Truncated requests *)

Lemma recv_into_full (g : nat → ascii) (data : bytes) :
  (Z.to_nat REQ_BUF_SIZE ≤ length data)%nat →
  recv_into g data = take (Z.to_nat REQ_BUF_SIZE) data.
Proof.
  intros Hlen. unfold recv_into.
  rewrite length_take_le by done. rewrite Nat.sub_diag.
  cbn [seq fmap list_fmap]. apply app_nil_r.
Qed.

Lemma recv_into_length (g : nat → ascii) (data : bytes) :
  length (recv_into g data) = Z.to_nat REQ_BUF_SIZE.
Proof.
  unfold recv_into. rewrite length_app, length_fmap, length_seq, length_take.
  lia.
Qed.

(** The decoder sees its buffer through the string that starts it. *)
Lemma parse_request_c_str (ok : bool) (mem mem' : bytes) (fd : Z) :
  c_str mem = c_str mem' →
  parse_request ok (Some mem) fd = parse_request ok (Some mem') fd.
Proof.
  intros Hstr. unfold parse_request, _parse_request, strdup_mem.
  destruct (_initialize_request ok); [|done]. by rewrite Hstr.
Qed.

(** A request shorter than the array is decoded as it arrived when the
    character that the array happened to hold right after it is a NUL. *)
Lemma get_request_terminated_by_chance (ok : bool) (g : nat → ascii)
    (data : bytes) (fd : Z) :
  (length data < Z.to_nat REQ_BUF_SIZE)%nat → NUL ∉ data →
  g (length data) = NUL →
  get_request ok g (Some data) fd = parse_request ok (Some (data ++ [NUL])) fd.
Proof.
  intros Hlen Hnul Hg. unfold get_request, recv_into.
  apply parse_request_c_str.
  rewrite take_ge by lia.
  destruct (Z.to_nat REQ_BUF_SIZE - length data)%nat as [|n] eqn:Hn; [lia|].
  cbn [seq fmap list_fmap]. rewrite Hg.
  by rewrite !c_str_terminated.
Qed.

(** X8.  Nothing terminates the array that receives the request: when
    neither the characters that arrived nor the characters that the array
    held before hold a NUL, decoding reads past the end of the array,
    however short the request is. *)
Lemma get_request_unterminated (g : nat → ascii) (data : bytes) (fd : Z) :
  NUL ∉ data → (∀ i, g i ≠ NUL) →
  get_request true g (Some data) fd = Undefined ReadPastObject.
Proof.
  intros Hnul Hg.
  unfold get_request, parse_request, _initialize_request, _parse_request,
    strdup_mem.
  rewrite c_str_unterminated; [done|]. unfold recv_into.
  rewrite not_elem_of_app. split.
  - intros Hin. apply Hnul. by eapply subseteq_take.
  - rewrite list_elem_of_fmap. intros (i & Hi & _). by eapply Hg.
Qed.

(** C5 fails on the code.  The receive call stores at most [REQ_BUF_SIZE]
    characters, so the input is cut to the capacity; but nothing terminates
    the array, and when the characters that arrived fill it without a NUL
    the decoder's [strdup] reads past its end. *)
Theorem full_buffer_is_read_past (g : nat → ascii) (data : bytes) (fd : Z) :
  (Z.to_nat REQ_BUF_SIZE ≤ length data)%nat →
  NUL ∉ take (Z.to_nat REQ_BUF_SIZE) data →
  get_request true g (Some data) fd = Undefined ReadPastObject.
Proof.
  intros Hlen Hnul.
  unfold get_request, parse_request, _initialize_request, _parse_request,
    strdup_mem.
  rewrite recv_into_full by done.
  by rewrite c_str_unterminated.
Qed.

Lemma full_buffer_is_read_past_witness :
  get_request true (λ _, NUL)
    (Some (str "GET /x HTTP/1.1" ++ CRLF ++ str "Cookie: " ++ replicate (Z.to_nat 9000) SP))
    4
  = Undefined ReadPastObject.
Proof.
  apply (full_buffer_is_read_past (λ _, NUL)
           (str "GET /x HTTP/1.1" ++ CRLF ++ str "Cookie: " ++ replicate (Z.to_nat 9000) SP)
           4); by_evaluation.
Defined.

(** ** Counting events *)

Lemma times_nil (e : event) : times e [] = O.
Proof. reflexivity. Qed.

Lemma times_app (e : event) (l k : list event) :
  times e (l ++ k) = (times e l + times e k)%nat.
Proof. unfold times. by rewrite filter_app, length_app. Qed.

Lemma times_cons_eq (e : event) (l : list event) :
  times e (e :: l) = S (times e l).
Proof. unfold times. by rewrite filter_cons_True. Qed.

Lemma times_cons_ne (e x : event) (l : list event) :
  x ≠ e → times e (x :: l) = times e l.
Proof. intros Hne. unfold times. by rewrite filter_cons_False. Qed.

Ltac count_events :=
  repeat (rewrite times_app || rewrite times_cons_eq || rewrite times_nil
          || rewrite times_cons_ne by congruence).

(** Runs the steps of a run whose inputs are known. *)
Ltac step :=
  cbn [mbind run_bind mret run_ret emit eval deref free_string chars
       conn_fd http_method url http_ver header_htab negb].

(** ** Releasing a request *)

(** What [_free_request] releases: the request itself, once, and besides it
    only the table and the strings of its fields. *)
Lemma free_request_run (r : request) :
  ∃ events,
    _free_request (Some r) = Done () events
    ∧ times (EvFree BRequest) events = 1%nat
    ∧ times (EvFree BConnArg) events = O
    ∧ times (EvFree BResponse) events = O
    ∧ (∀ e, (∀ b, e ≠ EvFree b) → times e events = O).
Proof.
  unfold _free_request.
  destruct (header_htab r), (http_method r), (url r), (http_ver r); step;
    (eexists; split; [reflexivity|]); repeat split; intros;
    by count_events.
Qed.

Lemma clean_request_nothing : clean_request None None None = Done () [].
Proof. reflexivity. Qed.

(** What [close_request] does: it closes the connection, unless the handle
    is the one that stands for no connection, and releases the request. *)
Lemma close_request_run (r : request) :
  ∃ events,
    close_request (Some r)
    = Done () ((if bool_decide (conn_fd r ≠ -1) then [EvClose (conn_fd r)]
                else []) ++ events)
    ∧ times (EvFree BRequest) events = 1%nat
    ∧ times (EvFree BConnArg) events = O
    ∧ times (EvFree BResponse) events = O
    ∧ (∀ e, (∀ b, e ≠ EvFree b) → times e events = O).
Proof.
  unfold close_request. step. case_bool_decide; step.
  - destruct (free_request_run
                {| conn_fd := -1; http_method := http_method r; url := url r;
                   http_ver := http_ver r; header_htab := header_htab r |})
      as (ev & Hev & Hfacts).
    rewrite Hev. exists ev. by rewrite app_nil_r.
  - destruct (free_request_run r) as (ev & Hev & Hfacts).
    rewrite Hev. by exists ev.
Qed.

(** What [clean_request] does with the components it is given, the request
    among them: each one that is present is released once, each one that is
    absent is left alone, and nothing is sent. *)
Lemma clean_request_once (file : option FILE) (r : request)
    (res : option response) :
  ∃ events,
    clean_request file (Some r) res = Done () events
    ∧ (∀ fd, times (EvClose fd) events
             = if bool_decide (fd = conn_fd r ∧ fd ≠ -1) then 1%nat else O)
    ∧ (∀ f, times (EvFclose f) events
            = if bool_decide (file = Some f) then 1%nat else O)
    ∧ times (EvFree BRequest) events = 1%nat
    ∧ times (EvFree BResponse) events = (if res is Some _ then 1%nat else O)
    ∧ times (EvFree BConnArg) events = O
    ∧ (∀ fd data, times (EvSend fd data) events = O)
    ∧ (∀ path, times (EvFopen path) events = O).
Proof.
  unfold clean_request, close_response.
  destruct (close_request_run r) as (ev & Hev & Hreq & Harg & Hres & Hother).
  destruct file as [f'|], res as [res|]; step; rewrite Hev; step;
    (eexists; split; [reflexivity|]);
    (split;
     [intros fd; destruct (decide (fd = conn_fd r)) as [->|Hne]
     |repeat split; intros]);
    repeat case_bool_decide; simplify_eq; count_events;
    rewrite ?Hreq, ?Harg, ?Hres, ?Hother by (intros; discriminate);
    first [done|tauto].
Qed.

(** ** The connection worker *)

Lemma get_request_no_data (ok : bool) (g : nat → ascii) (fd : Z) :
  get_request ok g None fd = Ret None.
Proof. reflexivity. Qed.

Lemma get_request_no_memory (g : nat → ascii) (rx : option bytes) (fd : Z) :
  get_request false g rx fd = Ret None.
Proof. by destruct rx. Qed.

(** A request that [get_request] returns is bound to the connection and
    has its three tokens. *)
Lemma get_request_fields (ok : bool) (g : nat → ascii) (rx : option bytes)
    (fd : Z) (r : request) :
  get_request ok g rx fd = Ret (Some r) →
  conn_fd r = fd
  ∧ ∃ method target version,
      http_method r = Some (Heap method) ∧ url r = Some (Heap target)
      ∧ http_ver r = Some (Heap version).
Proof.
  unfold get_request, parse_request, _initialize_request, _parse_request.
  destruct rx as [data|]; [|done]. destruct ok; [|done].
  destruct (strdup_mem _) as [req_buff|]; [|done]. cbn [mbind outcome_bind].
  destruct (strtok (Some req_buff) [SP] []) as [[tok1|] save1]; [|done].
  cbn [strdup mbind outcome_bind].
  destruct (strtok None [SP] save1) as [[tok2|] save2]; [|done].
  cbn [strdup mbind outcome_bind].
  destruct (strtok None [CR] save2) as [[tok3|] save3]; [|done].
  cbn [strdup mbind outcome_bind]. intros [= <-]. simpl. eauto 10.
Qed.

(** Without a request the worker does not get far: having freed the cell
    that carried the handle, it reads the target through the null pointer. *)
Lemma worker_without_request (w : world) (fd : Z) :
  get_request (malloc_ok w) (garbage w) (rx w) fd = Ret None →
  handle_request w fd = Fault NullDereference [EvFree BConnArg].
Proof. intros Hreq. unfold handle_request. by rewrite Hreq. Qed.

(** C2 fails on the code.  When [get_request] returns null, because the
    receive call failed or because decoding gave no request, the worker
    does not go to its cleanup: it reads the target through the null
    pointer.  Nothing has been sent at that point, as the claim says, but
    the connection has not been closed either. *)
Theorem worker_reads_null_request (w : world) (fd : Z) :
  get_request (malloc_ok w) (garbage w) (rx w) fd = Ret None →
  ∃ events,
    handle_request w fd = Fault NullDereference events
    ∧ (∀ fd' data, times (EvSend fd' data) events = O)
    ∧ ∀ fd', times (EvClose fd') events = O.
Proof.
  intros Hreq. exists [EvFree BConnArg].
  split; [by apply worker_without_request|].
  split; intros; by count_events.
Qed.

Lemma worker_reads_null_request_witness :
  ∃ events,
    handle_request (example_world None) 4 = Fault NullDereference events
    ∧ (∀ fd' data, times (EvSend fd' data) events = O)
    ∧ ∀ fd', times (EvClose fd') events = O.
Proof.
  apply (worker_reads_null_request (example_world None) 4). reflexivity.
Defined.

(** C6 fails on the code.  On the paths where the receive call fails or no
    request can be allocated, the worker never reaches [clean_request]: its
    run breaks at the first read through the request, and up to there
    nothing but the cell of the handle has been released: not the
    connection handle that the worker was given. *)
Theorem failed_receive_skips_cleanup (w : world) (fd : Z) :
  rx w = None ∨ malloc_ok w = false →
  handle_request w fd = Fault NullDereference [EvFree BConnArg]
  ∧ times (EvClose fd) [EvFree BConnArg] = O.
Proof.
  intros Hfail. split; [|by count_events].
  apply worker_without_request.
  destruct Hfail as [Hrx|Hmem].
  - by rewrite Hrx.
  - by rewrite Hmem, get_request_no_memory.
Qed.

Lemma failed_receive_skips_cleanup_witness :
  handle_request (example_world None) 4
  = Fault NullDereference [EvFree BConnArg]
  ∧ times (EvClose 4) [EvFree BConnArg] = O.
Proof.
  apply (failed_receive_skips_cleanup (example_world None) 4).
  left. reflexivity.
Defined.

(** X13.  Every run of the worker that comes to an end went through
    [clean_request] once: the connection is closed once, the request and the
    cell that carried the handle are freed once, and the stream and the
    response are released once if the file was opened and not at all
    otherwise. *)
Lemma finished_worker_released_once (w : world) (fd : Z)
    (events : list event) :
  fd ≠ -1 → handle_request w fd = Done () events →
  times (EvClose fd) events = 1%nat
  ∧ times (EvFree BRequest) events = 1%nat
  ∧ times (EvFree BConnArg) events = 1%nat
  ∧ ∃ path,
      times (EvFopen path) events = 1%nat
      ∧ (∀ f, times (EvFclose f) events
              = if bool_decide (fopen w path = Some f) then 1%nat else O)
      ∧ times (EvFree BResponse) events
        = (if fopen w path is Some _ then 1%nat else O).
Proof.
  intros Hfd. unfold handle_request. step.
  destruct (get_request _ _ _ _) as [[r|]|] eqn:Hreq; step; [|done|done].
  apply get_request_fields in Hreq as (<- & m & t & v & Hm & Ht & Hv).
  rewrite Ht. step.
  destruct (streq t (str "/")) eqn:Hroot; step; rewrite Hm, ?Ht, Hv; step;
    (unfold sprintf2; case_bool_decide; step; [|done]);
    (destruct (fopen w _) as [file|] eqn:Hopen;
     [unfold send_response_header, send_response_file, send_all;
      repeat (case_bool_decide; step)|]);
    (match goal with
     | |- context [clean_request ?f (Some ?r') ?res] =>
         destruct (clean_request_once f r' res)
           as (ev & Hev & Hclose & Hfclose & Hfree & Hres & Harg & Hsend
               & Hfopen);
         rewrite Hev
     end);
    step; intros [= <-]; cbn [conn_fd] in Hclose;
    (split; [|split; [|split;
       [|match type of Hopen with fopen w ?p = _ => exists p end;
         rewrite Hopen; split; [|split; [intros f|]]]]]);
    count_events;
    rewrite ?Hclose, ?Hfclose, ?Hfree, ?Hres, ?Harg, ?Hsend, ?Hfopen;
    repeat case_bool_decide; simplify_eq; first [done|tauto].
Qed.

(** ** Resolving the target *)

(** X14.  What the worker does with a decoded request whose path fits the
    array [file_path]: it comes to an end and has opened the resolved path, with
    the default page in place of the root path; and when the file cannot be
    opened it has sent nothing and closed the connection. *)
Lemma worker_resolves_target (w : world) (fd : Z) (r : request)
    (target : cptr) :
  get_request (malloc_ok w) (garbage w) (rx w) fd = Ret (Some r) →
  url r = Some target →
  Z.of_nat (length (resolved w (chars target))) < FILE_PATH_BUF_SIZE →
  ∃ events,
    handle_request w fd = Done () events
    ∧ times (EvFopen (resolved w (chars target))) events = 1%nat
    ∧ (fopen w (resolved w (chars target)) = None → fd ≠ -1 →
       times (EvClose fd) events = 1%nat
       ∧ ∀ fd' data, times (EvSend fd' data) events = O).
Proof.
  intros Hreq Hurl Hfits. unfold handle_request. step. rewrite Hreq. step.
  apply get_request_fields in Hreq as (<- & m & t & v & Hm & Ht & Hv).
  rewrite Hurl. step. revert Hfits. unfold resolved.
  destruct (streq (chars target) (str "/")) eqn:Hroot; intros Hfits; step;
    rewrite Hm, ?Hurl, Hv; step;
    (unfold sprintf2; rewrite bool_decide_eq_true_2 by done; step);
    (destruct (fopen w _) as [file|] eqn:Hopen;
     [unfold send_response_header, send_response_file, send_all;
      repeat (case_bool_decide; step)|]);
    (match goal with
     | |- context [clean_request ?f (Some ?r') ?res] =>
         destruct (clean_request_once f r' res)
           as (ev & Hev & Hclose & Hfclose & Hfree & Hres & Harg & Hsend
               & Hfopen);
         rewrite Hev
     end);
    step; cbn [conn_fd] in Hclose;
    (eexists; split; [reflexivity|]; split;
     [|intros Hnone Hfd; try discriminate Hnone;
       (split; [|intros fd' data])]);
    count_events; rewrite ?Hclose, ?Hsend, ?Hfopen;
    repeat case_bool_decide; first [done|tauto].
Qed.

(** X15.  On the root path the string that [get_config_str] handed out sits
    in the request when it is released, and [_free_request] passes it to
    [free]. *)
Lemma root_target_frees_page (w : world) (fd : Z) (r : request)
    (events : list event) :
  get_request (malloc_ok w) (garbage w) (rx w) fd = Ret (Some r) →
  url r = Some (Heap (str "/")) →
  handle_request w fd = Done () events →
  EvFree (BString (Conf (page w))) ∈ events.
Proof.
  intros Hreq Hurl. unfold handle_request. step. rewrite Hreq. step.
  apply get_request_fields in Hreq as (<- & m & t & v & Hm & Ht & Hv).
  rewrite Hurl. step. unfold streq at 1.
  rewrite (bool_decide_eq_true_2 (str "/" = str "/")) by done.
  step. rewrite Hm, Hv. step.
  unfold sprintf2; case_bool_decide; step; [|done].
  unfold clean_request, close_request, _free_request.
  destruct (fopen w _) as [file|];
    [unfold send_response_header, send_response_file, send_all;
     repeat (case_bool_decide; step)|];
    step; repeat (case_bool_decide; step);
    destruct (header_htab r); step; intros [= <-];
    apply list_elem_of_In; simpl; repeat (first [left; reflexivity|right]).
Qed.

(** C7 fails on the code.  The path is built with [sprintf] in an array of
    [FILE_PATH_BUF_SIZE] characters, while a target can be as long as the
    receive buffer.  For a target whose resolved path does not fit, the
    worker writes past the array before it tries to open anything: the run
    is undefined, where a closed connection with nothing sent was due. *)
Theorem long_target_overruns_file_path (w : world) (fd : Z) (r : request)
    (target : cptr) :
  get_request (malloc_ok w) (garbage w) (rx w) fd = Ret (Some r) →
  url r = Some target →
  FILE_PATH_BUF_SIZE ≤ Z.of_nat (length (resolved w (chars target))) →
  ∃ events,
    handle_request w fd = Fault WritePastObject events
    ∧ times (EvClose fd) events = O
    ∧ ∀ path, times (EvFopen path) events = O.
Proof.
  intros Hreq Hurl Hlong. unfold handle_request. step. rewrite Hreq. step.
  apply get_request_fields in Hreq as (<- & m & t & v & Hm & Ht & Hv).
  rewrite Hurl. step. revert Hlong. unfold resolved.
  destruct (streq (chars target) (str "/")) eqn:Hroot; intros Hlong; step;
    rewrite Hm, ?Hurl, Hv; step;
    (unfold sprintf2; rewrite bool_decide_eq_false_2 by lia; step);
    (eexists; split; [reflexivity|]; split; [|intros path]);
    by count_events.
Qed.

Lemma long_target_overruns_file_path_witness :
  ∃ events,
    handle_request
      (example_world
         (Some (str "GET " ++ long_target ++ str " HTTP/1.1" ++ CRLF ++ CRLF)))
      4
    = Fault WritePastObject events
    ∧ times (EvClose 4) events = O
    ∧ ∀ path, times (EvFopen path) events = O.
Proof.
  apply (long_target_overruns_file_path _ 4
           {| conn_fd := 4;
              http_method := Some (Heap (str "GET"));
              url := Some (Heap long_target);
              http_ver := Some (Heap (str "HTTP/1.1"));
              header_htab := Some ∅ |}
           (Heap long_target)).
  - vm_compute. reflexivity.
  - reflexivity.
  - vm_compute. discriminate.
Defined.

(** ** The accept loop *)

Lemma accept_failure_retries (r : round) :
  accept_ret r < 0 →
  accept_round r
  = Done () [EvPerror (str "Unable to accept new connection")].
Proof.
  intros Hacc. unfold accept_round.
  by rewrite (proj2 (Z.ltb_lt _ _) Hacc).
Qed.

(** A round in which the worker is started hands the connection to it and
    does not close it, whether detaching works or not. *)
Lemma started_round (r : round) :
  0 ≤ accept_ret r → cell_ok r = true → pthread_create_ret r = 0 →
  ∃ events,
    accept_round r = Done () (EvThread (accept_ret r) :: events)
    ∧ ∀ fd, times (EvClose fd) events = O.
Proof.
  intros Hacc Hcell Hthr. unfold accept_round, pthread_create, pthread_detach.
  rewrite (proj2 (Z.ltb_ge _ _) Hacc), Hcell, Hthr. step. simpl.
  destruct (pthread_detach_ret r =? 0); step;
    (eexists; split; [reflexivity|]); intros; by count_events.
Qed.

(** Failures of [accept] and of detaching never end the loop: after any
    number of rounds of these kinds, and of rounds that start a worker, the
    loop is back at [accept]. *)
Lemma accept_loop_goes_on (rounds : list round) :
  Forall (λ r, accept_ret r < 0
               ∨ (0 ≤ accept_ret r ∧ cell_ok r = true
                  ∧ pthread_create_ret r = 0)) rounds →
  ∃ events, accept_loop rounds = Done () events.
Proof.
  induction 1 as [|r rounds Hr Hrounds [events IH]]; [by eexists|].
  cbn [accept_loop]. rewrite IH.
  destruct Hr as [Hacc|(Hacc & Hcell & Hthr)].
  - rewrite accept_failure_retries by done. by eexists.
  - destruct (started_round r) as (ev & -> & _); [done..|]. by eexists.
Qed.

(** The branch that closes the connection is taken for a negative result of
    [pthread_create] only. *)
Lemma negative_thread_result_closes (r : round) :
  0 ≤ accept_ret r → cell_ok r = true → pthread_create_ret r < 0 →
  accept_round r
  = Done () [EvPerror (str "Unable to create new thread");
             EvClose (accept_ret r); EvFree BConnArg].
Proof.
  intros Hacc Hcell Hthr. unfold accept_round, pthread_create.
  rewrite (proj2 (Z.ltb_ge _ _) Hacc), Hcell. step.
  rewrite (proj2 (Z.eqb_neq _ _)) by lia. step.
  by rewrite (proj2 (Z.ltb_lt _ _) Hthr).
Qed.

(** C9 fails on the code.  [pthread_create] reports a failure with a
    positive error number, and the loop tests its result with [< 0].  When
    the worker cannot be started, the branch that logs and closes the
    connection is therefore skipped: nothing has been logged and the
    connection has not been closed when the loop goes on to detach a thread
    that does not exist; no later round is reached. *)
Theorem failed_thread_start_not_handled (r : round) :
  0 ≤ accept_ret r → cell_ok r = true → 0 < pthread_create_ret r →
  accept_round r = Fault NoSuchThread []
  ∧ ∀ rounds, accept_loop (r :: rounds) = Fault NoSuchThread [].
Proof.
  intros Hacc Hcell Hthr.
  assert (accept_round r = Fault NoSuchThread []) as Hround.
  { unfold accept_round, pthread_create, pthread_detach.
    rewrite (proj2 (Z.ltb_ge _ _) Hacc), Hcell. step.
    rewrite (proj2 (Z.eqb_neq _ _)) by lia. step.
    by rewrite (proj2 (Z.ltb_ge _ _)) by lia. }
  split; [done|]. intros rounds. cbn [accept_loop]. by rewrite Hround.
Qed.

Lemma failed_thread_start_not_handled_witness :
  accept_round {| accept_ret := 5; cell_ok := true;
                  pthread_create_ret := 11; pthread_detach_ret := 0 |}
  = Fault NoSuchThread []
  ∧ ∀ rounds,
      accept_loop ({| accept_ret := 5; cell_ok := true;
                      pthread_create_ret := 11; pthread_detach_ret := 0 |}
                   :: rounds) = Fault NoSuchThread [].
Proof.
  apply (failed_thread_start_not_handled
           {| accept_ret := 5; cell_ok := true;
              pthread_create_ret := 11; pthread_detach_ret := 0 |});
    simpl; (lia || reflexivity).
Defined.

(** * Further properties *)

(** ** What the tokenizer returns *)

Lemma c_str_no_nul (mem s : bytes) : c_str mem = Ret s → NUL ∉ s.
Proof.
  revert s. induction mem as [|c mem IH]; intros s; cbn [c_str]; [done|].
  case_decide as Hc.
  - intros [= <-]. apply not_elem_of_nil.
  - destruct (c_str mem) as [s'|]; [|done]. cbn [mbind outcome_bind].
    intros [= <-]. apply not_elem_of_cons. split; [congruence|by apply IH].
Qed.

Lemma skip_delims_subseteq (delim s : bytes) : skip_delims delim s ⊆ s.
Proof.
  induction s as [|c s IH]; simpl; [done|].
  case_bool_decide; [|done]. intros x Hx. apply elem_of_cons. right.
  by apply IH.
Qed.

Lemma scan_token_spec (delim s tok rest : bytes) :
  scan_token delim s = (tok, rest) →
  Forall (λ c, c ∉ delim) tok ∧ tok ⊆ s ∧ rest ⊆ s.
Proof.
  revert tok rest. induction s as [|c s IH]; intros tok rest; simpl.
  - by intros [= <- <-].
  - case_bool_decide as Hc.
    + intros [= <- <-]. split; [done|]. split; [by intros x Hx; inversion Hx|].
      intros x Hx. apply elem_of_cons. by right.
    + destruct (scan_token delim s) as [tok' rest'] eqn:Hs.
      intros [= <- <-]. destruct (IH tok' rest') as (Hd & Ht & Hr); [done|].
      split; [by apply Forall_cons|]. split; intros x Hx.
      * apply elem_of_cons in Hx as [->|Hx]; apply elem_of_cons; [by left|].
        right. by apply Ht.
      * apply elem_of_cons. right. by apply Hr.
Qed.

(** A token that [strtok] returns is not empty, holds no delimiter, and is
    made, as is what the call leaves, of characters of the string. *)
Lemma strtok_spec (from : option bytes) (delim save tok rest : bytes) :
  strtok from delim save = (Some tok, rest) →
  tok ≠ [] ∧ Forall (λ c, c ∉ delim) tok
  ∧ tok ⊆ default save from ∧ rest ⊆ default save from.
Proof.
  unfold strtok.
  pose proof (skip_delims_subseteq delim (default save from)) as Hskip.
  destruct (skip_delims delim (default save from)) as [|c s] eqn:Hs; [done|].
  destruct (scan_token delim (c :: s)) as [tok' rest'] eqn:Hscan.
  intros [= <- <-].
  pose proof (scan_token_spec _ _ _ _ Hscan) as (Hd & Ht & Hr).
  split; [|split; [done|split; intros x Hx; apply Hskip; auto]].
  revert Hscan. simpl. case_bool_decide as Hc.
  - exfalso.
    assert (skip_delims delim (c :: s) = c :: s) as Hfix.
    { rewrite <- Hs. clear. induction (default save from) as [|x l IH];
        simpl; [done|]. case_bool_decide as Hx; [done|].
      simpl. by rewrite bool_decide_eq_false_2. }
    simpl in Hfix. rewrite bool_decide_eq_true_2 in Hfix by done.
    pose proof (skip_delims_length delim s) as Hlen. rewrite Hfix in Hlen.
    simpl in Hlen. lia.
  - destruct (scan_token delim s). by intros [= <- <-].
Qed.

(** The header loop keeps the table clean: on a string without NUL, every
    name it stores is free of colons and every value free of carriage
    returns. *)
Lemma parse_headers_clean (fuel : nat) (save : bytes) (tab : gmap bytes bytes) :
  NUL ∉ save → map_Forall clean_pair tab →
  ∃ tab', parse_headers fuel save (Some tab) = Some tab'
          ∧ map_Forall clean_pair tab'.
Proof.
  revert save tab. induction fuel as [|fuel IH]; intros save tab Hnul Htab;
    cbn [parse_headers]; [by eexists|].
  destruct (strtok None [COLON] save) as [[key|] save1] eqn:Hkey;
    [|by eexists].
  apply strtok_spec in Hkey as (Hk1 & Hk2 & Hk3 & Hk4). simpl in Hk3, Hk4.
  destruct (strtok None [CR] save1) as [[val|] save2] eqn:Hval; [|by eexists].
  apply strtok_spec in Hval as (Hv1 & Hv2 & Hv3 & Hv4). simpl in Hv3, Hv4.
  cbn [g_hash_table_insert fmap option_fmap option_map].
  apply IH.
  - intros Hin. apply Hnul. by apply Hk4, Hv4.
  - apply map_Forall_insert_2; [|done].
    destruct key as [|k0 key]; [done|]. destruct val as [|v0 val]; [done|].
    apply Forall_cons in Hk2 as [_ Hk2]. apply Forall_cons in Hv2 as [_ Hv2].
    simpl. repeat split.
    + intros Hin. eapply Forall_forall in Hk2; [|done].
      apply Hk2. by apply list_elem_of_singleton.
    + intros Hin. apply Hnul, Hk3. apply elem_of_cons. by right.
    + intros Hin. eapply Forall_forall in Hv2; [|done].
      apply Hv2. by apply list_elem_of_singleton.
    + intros Hin. apply Hnul, Hk4, Hv3. apply elem_of_cons. by right.
Qed.

Lemma inserted_list_to_map (hs : list (bytes * bytes)) :
  inserted hs ∅ = list_to_map (reverse hs).
Proof.
  induction hs as [|h hs IH] using rev_ind; [done|].
  unfold inserted in *. rewrite foldl_app, reverse_snoc. simpl.
  rewrite IH. by destruct h.
Qed.

Lemma skip_delims_replicate (d : ascii) (n : nat) :
  skip_delims [d] (replicate n d) = [].
Proof.
  induction n as [|n IH]; simpl; [done|].
  rewrite bool_decide_eq_true_2; [done|]. by apply list_elem_of_singleton.
Qed.

Lemma strtok_nothing (d : ascii) (n : nat) (save : bytes) (from : option bytes) :
  default save from = replicate n d → strtok from [d] save = (None, []).
Proof. intros Hfrom. unfold strtok. by rewrite Hfrom, skip_delims_replicate. Qed.

Lemma strtok_leading (d : ascii) (s : bytes) :
  strtok None [d] (d :: s) = strtok None [d] s.
Proof.
  unfold strtok. simpl. rewrite bool_decide_eq_true_2; [done|].
  by apply list_elem_of_singleton.
Qed.

(** ** More on the request decoder *)

(** X1.  A request with any number of header lines, closed by the blank line
    or by other text without a colon, decodes to its three tokens and to a
    store that holds exactly the pairs of its lines, the last line winning
    where a name comes twice. *)
Theorem decode_whole_request (method target version : bytes)
    (hs : list (bytes * bytes)) (trail junk : bytes) (fd : Z) :
  token SP method → token SP target → token CR version →
  Forall splits hs → COLON ∉ trail →
  NUL ∉ request_line method target version ++ header_lines hs ++ trail →
  ∃ req,
    parse_request true
      (Some (request_line method target version ++ header_lines hs ++ trail
             ++ NUL :: junk)) fd = Ret (Some req)
    ∧ http_method req = Some (Heap method)
    ∧ url req = Some (Heap target)
    ∧ http_ver req = Some (Heap version)
    ∧ header_htab req = Some (list_to_map (reverse hs))
    ∧ ∀ key, get_request_header (Some req) (Some key) None
             = Ret ((list_to_map (reverse hs) : gmap bytes bytes) !! key,
                    None).
Proof.
  intros Hm Ht Hv Hhs Htrail Hnul.
  eexists. split; [by apply decode_wire_format|].
  rewrite inserted_list_to_map. repeat split.
  intros key. unfold get_request_header, g_hash_table_lookup.
  cbn [header_htab mbind option_bind].
  by destruct ((list_to_map (reverse hs) : gmap bytes bytes) !! key).
Qed.

Lemma decode_whole_request_witness :
  ∃ req,
    parse_request true
      (Some (request_line (str "GET") (str "/x") (str "HTTP/1.1")
             ++ header_lines [(str "Host", str "a"); (str "Accept", str "b");
                              (str "Host", str "c")]
             ++ CRLF ++ NUL :: [])) 4 = Ret (Some req)
    ∧ http_method req = Some (Heap (str "GET"))
    ∧ url req = Some (Heap (str "/x"))
    ∧ http_ver req = Some (Heap (str "HTTP/1.1"))
    ∧ header_htab req
      = Some (list_to_map (reverse [(str "Host", str "a");
                                    (str "Accept", str "b");
                                    (str "Host", str "c")]))
    ∧ ∀ key, get_request_header (Some req) (Some key) None
             = Ret ((list_to_map (reverse [(str "Host", str "a");
                                           (str "Accept", str "b");
                                           (str "Host", str "c")])
                     : gmap bytes bytes) !! key, None).
Proof.
  apply (decode_whole_request (str "GET") (str "/x") (str "HTTP/1.1")
           [(str "Host", str "a"); (str "Accept", str "b");
            (str "Host", str "c")] CRLF [] 4); by_evaluation.
Defined.

(** X2.  Decoding never reports a failure of its own: [parse_request]
    returns null only when it was given a null buffer or when the request
    could not be allocated. *)
Theorem parse_request_null_only (ok : bool) (req_buf : option bytes) (fd : Z) :
  parse_request ok req_buf fd = Ret None ↔ ok = false ∨ req_buf = None.
Proof.
  unfold parse_request, _initialize_request, _parse_request.
  destruct ok; [|by split; [left|]].
  destruct req_buf as [mem|]; [|by split; [right|]].
  split; [|by intros [|]].
  destruct (strdup_mem _) as [req_buff|]; [|done]. cbn [mbind outcome_bind].
  destruct (strtok (Some req_buff) [SP] []) as [[tok1|] save1]; [|done].
  cbn [strdup mbind outcome_bind].
  destruct (strtok None [SP] save1) as [[tok2|] save2]; [|done].
  cbn [strdup mbind outcome_bind].
  by destruct (strtok None [CR] save2) as [[tok3|] save3].
Qed.

(** X3.  A request that decoding returns is whole: it is bound to the
    connection it was decoded for, its method and target are non-empty and
    free of spaces, its version is non-empty and free of carriage returns,
    its table is there, and no name in the table holds a colon and no value
    a carriage return. *)
Theorem decoded_request_whole (ok : bool) (mem : bytes) (fd : Z) (r : request) :
  parse_request ok (Some mem) fd = Ret (Some r) →
  conn_fd r = fd
  ∧ ∃ method target version tab,
      http_method r = Some (Heap method) ∧ url r = Some (Heap target)
      ∧ http_ver r = Some (Heap version) ∧ header_htab r = Some tab
      ∧ token SP method ∧ token SP target ∧ token CR version
      ∧ (NUL ∉ method ++ target ++ version)
      ∧ map_Forall clean_pair tab.
Proof.
  unfold parse_request, _initialize_request, _parse_request, strdup_mem.
  destruct ok; [|done].
  destruct (c_str mem) as [req_buff|] eqn:Hstr; [|done].
  apply c_str_no_nul in Hstr. cbn [mbind outcome_bind].
  destruct (strtok (Some req_buff) [SP] []) as [[tok1|] save1] eqn:H1; [|done].
  apply strtok_spec in H1 as (Hm1 & Hm2 & Hm3 & Hm4). simpl in Hm3, Hm4.
  cbn [strdup mbind outcome_bind].
  destruct (strtok None [SP] save1) as [[tok2|] save2] eqn:H2; [|done].
  apply strtok_spec in H2 as (Ht1 & Ht2 & Ht3 & Ht4). simpl in Ht3, Ht4.
  cbn [strdup mbind outcome_bind].
  destruct (strtok None [CR] save2) as [[tok3|] save3] eqn:H3; [|done].
  apply strtok_spec in H3 as (Hv1 & Hv2 & Hv3 & Hv4). simpl in Hv3, Hv4.
  cbn [strdup mbind outcome_bind header_htab].
  destruct (parse_headers_clean (S (length save3)) save3 ∅)
    as (tab & Htab & Hclean).
  { intros Hin. by apply Hstr, Hm4, Ht4, Hv4. }
  { apply map_Forall_empty. }
  rewrite Htab. intros [= <-]. split; [done|].
  exists tok1, tok2, tok3, tab.
  assert (∀ d (tok : bytes), Forall (λ c, c ∉ [d]) tok → d ∉ tok) as Hfree.
  { intros d tok Hall Hin. eapply Forall_forall in Hall; [|done].
    apply Hall. by apply list_elem_of_singleton. }
  split_and!; try done; try (by split; auto).
  rewrite !not_elem_of_app. split_and!; intros Hin; apply Hstr; auto.
Qed.

Lemma decoded_request_whole_witness :
  conn_fd {| conn_fd := 4;
             http_method := Some (Heap (str "GET"));
             url := Some (Heap (str "/x"));
             http_ver := Some (Heap (str "HTTP/1.1"));
             header_htab := Some {[ str "Host" := str "a" ]} |} = 4
  ∧ ∃ method target version tab,
      Some (Heap (str "GET")) = Some (Heap method)
      ∧ Some (Heap (str "/x")) = Some (Heap target)
      ∧ Some (Heap (str "HTTP/1.1")) = Some (Heap version)
      ∧ Some ({[ str "Host" := str "a" ]} : gmap bytes bytes) = Some tab
      ∧ token SP method ∧ token SP target ∧ token CR version
      ∧ (NUL ∉ method ++ target ++ version)
      ∧ map_Forall clean_pair tab.
Proof.
  apply (decoded_request_whole true wire_example 4
           {| conn_fd := 4;
              http_method := Some (Heap (str "GET"));
              url := Some (Heap (str "/x"));
              http_ver := Some (Heap (str "HTTP/1.1"));
              header_htab := Some {[ str "Host" := str "a" ]} |}).
  vm_compute. reflexivity.
Defined.

(** X4.  A buffer that holds fewer than three tokens in all, the empty
    request among them, is not turned down: the tokenizer returns a null
    pointer for the missing token and [strdup] reads through it. *)
Theorem too_few_tokens_fault (s junk : bytes) (fd : Z) :
  short_of_tokens s → NUL ∉ s →
  parse_request true (Some (s ++ NUL :: junk)) fd = Undefined NullDereference.
Proof.
  intros Hshort Hnul.
  unfold parse_request, _initialize_request, _parse_request, strdup_mem.
  rewrite c_str_terminated by done. cbn [mbind outcome_bind].
  destruct Hshort as [n|m n [Hm1 Hm2]|m t [Hm1 Hm2] [Ht1 Ht2]
                     |m t n [Hm1 Hm2] [Ht1 Ht2]].
  - by rewrite (strtok_nothing SP n).
  - destruct n as [|n].
    + rewrite app_nil_r. rewrite (strtok_end SP m) by done.
      cbn [strdup mbind outcome_bind]. by rewrite (strtok_nothing SP 0).
    + rewrite (strtok_delim SP m (replicate n SP)) by done.
      cbn [strdup mbind outcome_bind]. by rewrite (strtok_nothing SP n).
  - rewrite (strtok_delim SP m t) by done.
    cbn [strdup mbind outcome_bind]. rewrite (strtok_end SP t) by done.
    cbn [strdup mbind outcome_bind]. by rewrite (strtok_nothing CR 0).
  - rewrite (strtok_delim SP m (t ++ SP :: replicate n CR)) by done.
    cbn [strdup mbind outcome_bind].
    rewrite (strtok_delim SP t (replicate n CR)) by done.
    cbn [strdup mbind outcome_bind]. by rewrite (strtok_nothing CR n).
Qed.

Lemma too_few_tokens_fault_witness :
  parse_request true (Some ([] ++ NUL :: str "stale")) 4
  = Undefined NullDereference
  ∧ parse_request true (Some ((str "GET" ++ SP :: str "/x") ++ [NUL])) 4
    = Undefined NullDereference.
Proof.
  split.
  - apply (too_few_tokens_fault [] (str "stale") 4);
      [apply (no_token 0)|by_evaluation].
  - apply (too_few_tokens_fault (str "GET" ++ SP :: str "/x") [] 4);
      [apply two_tokens|]; by_evaluation.
Defined.

(** X5.  The value of a header starts one character after the colon,
    whatever that character is: the space of [Host: a] is dropped, and so is
    the first character of the value when no space is written. *)
Theorem character_after_colon_dropped (method target version : bytes)
    (name : bytes) (c : ascii) (value trail junk : bytes) (fd : Z) :
  token SP method → token SP target → token CR version →
  COLON ∉ name → c ≠ CR → CR ∉ value → COLON ∉ trail →
  NUL ∉ request_line method target version
        ++ name ++ COLON :: c :: value ++ CRLF ++ trail →
  ∃ req,
    parse_request true
      (Some (request_line method target version
             ++ name ++ COLON :: c :: value ++ CRLF ++ trail ++ NUL :: junk))
      fd = Ret (Some req)
    ∧ header_htab req = Some {[ name := value ]}.
Proof.
  intros Hm Ht Hv Hname Hc Hvalue Htrail Hnul.
  pose proof (decode_request_line method target version
                (LF :: name ++ COLON :: c :: value ++ CR :: LF :: trail)
                junk fd Hm Ht Hv) as Hline.
  revert Hnul Hline. unfold request_line, CRLF. flatten. intros Hnul Hline.
  eexists. split; [by apply Hline|]. cbn [header_htab].
  rewrite (parse_headers_round _ LF c (name, value)); [|done|done|done].
  by rewrite parse_headers_last.
Qed.

Lemma character_after_colon_dropped_witness :
  ∃ req,
    parse_request true
      (Some (request_line (str "GET") (str "/x") (str "HTTP/1.1")
             ++ str "Host" ++ COLON :: Ascii.ascii_of_nat 97 :: str "bc"
             ++ CRLF ++ CRLF ++ NUL :: [])) 4 = Ret (Some req)
    ∧ header_htab req = Some {[ str "Host" := str "bc" ]}.
Proof.
  apply (character_after_colon_dropped (str "GET") (str "/x") (str "HTTP/1.1")
           (str "Host") (Ascii.ascii_of_nat 97) (str "bc") CRLF [] 4);
    by_evaluation.
Defined.

(** X6.  A header line with nothing after its colon takes the line that
    follows it as its value: the tokenizer skips the carriage return that
    should have ended the value, and the next line, colon and all, is stored
    under the name of the empty header instead of as a header of its own. *)
Theorem empty_value_takes_next_line (method target version : bytes)
    (name next trail junk : bytes) (fd : Z) :
  token SP method → token SP target → token CR version →
  COLON ∉ name → CR ∉ next → COLON ∉ trail →
  NUL ∉ request_line method target version
        ++ name ++ COLON :: CRLF ++ next ++ CRLF ++ trail →
  ∃ req,
    parse_request true
      (Some (request_line method target version
             ++ name ++ COLON :: CRLF ++ next ++ CRLF ++ trail ++ NUL :: junk))
      fd = Ret (Some req)
    ∧ header_htab req = Some {[ name := next ]}.
Proof.
  intros Hm Ht Hv Hname Hnext Htrail Hnul.
  pose proof (decode_request_line method target version
                (LF :: name ++ COLON :: CR :: LF :: next ++ CR :: LF :: trail)
                junk fd Hm Ht Hv) as Hline.
  revert Hnul Hline. unfold request_line, CRLF. flatten. intros Hnul Hline.
  eexists. split; [by apply Hline|]. cbn [header_htab parse_headers].
  rewrite (strtok_delim COLON (LF :: name)
             (CR :: LF :: next ++ CR :: LF :: trail)); [|done|done|].
  - rewrite strtok_leading.
    rewrite (strtok_delim CR (LF :: next) (LF :: trail)); [|done|done|].
    + cbn [g_hash_table_insert fmap option_fmap option_map tail].
      by rewrite parse_headers_last.
    + by apply not_elem_of_cons.
  - by apply not_elem_of_cons.
Qed.

Lemma empty_value_takes_next_line_witness :
  ∃ req,
    parse_request true
      (Some (request_line (str "GET") (str "/x") (str "HTTP/1.1")
             ++ str "Accept" ++ COLON :: CRLF ++ str "Host: a" ++ CRLF ++ CRLF
             ++ NUL :: [])) 4 = Ret (Some req)
    ∧ header_htab req = Some {[ str "Accept" := str "Host: a" ]}.
Proof.
  apply (empty_value_takes_next_line (str "GET") (str "/x") (str "HTTP/1.1")
           (str "Accept") (str "Host: a") CRLF [] 4); by_evaluation.
Defined.

(** ** More on receiving *)

Lemma fmap_seq_stale (g : nat → ascii) (stale : bytes) (start : nat) :
  (∀ i, (i < length stale)%nat → stale !! i = Some (g (start + i)%nat)) →
  g <$> seq start (length stale) = stale.
Proof.
  intros Hstale. apply list_eq. intros i.
  rewrite list_lookup_fmap.
  destruct (decide (i < length stale)%nat) as [Hi|Hi].
  - rewrite lookup_seq_lt by done. simpl. by rewrite Hstale.
  - rewrite lookup_seq_ge by lia. simpl. symmetry.
    apply lookup_ge_None. lia.
Qed.

(** X7.  The array that receives the request is neither cleared nor
    terminated, so what is decoded is the request that arrived together with
    what the array held after it, up to the first NUL: with a NUL right
    after the request it is the request alone, and when nothing arrived it
    is the old contents alone. *)
Theorem get_request_reads_stale (ok : bool) (g : nat → ascii)
    (data stale : bytes) (fd : Z) :
  (length data + length stale < Z.to_nat REQ_BUF_SIZE)%nat →
  NUL ∉ data ++ stale →
  (∀ i, (i < length stale)%nat →
        stale !! i = Some (g (length data + i)%nat)) →
  g (length data + length stale)%nat = NUL →
  get_request ok g (Some data) fd
  = parse_request ok (Some (data ++ stale ++ [NUL])) fd.
Proof.
  intros Hlen Hnul Hstale Hend. unfold get_request, recv_into.
  apply parse_request_c_str. rewrite take_ge by lia.
  replace (Z.to_nat REQ_BUF_SIZE - length data)%nat
    with (length stale + S (Z.to_nat REQ_BUF_SIZE - length data
                            - length stale - 1))%nat by lia.
  rewrite seq_app, fmap_app, fmap_seq_stale by done.
  cbn [seq fmap list_fmap]. rewrite Hend.
  rewrite !app_assoc. by rewrite !c_str_terminated.
Qed.

Lemma get_request_reads_stale_witness :
  get_request true
    (λ i, nth i (str "GET /old HTTP/1.1" ++ [CR; NUL]) NUL)
    (Some (str "GET /x")) 4
  = parse_request true
      (Some (str "GET /x" ++ (str "ld HTTP/1.1" ++ [CR]) ++ [NUL])) 4.
Proof.
  apply (get_request_reads_stale true
           (λ i, nth i (str "GET /old HTTP/1.1" ++ [CR; NUL]) NUL)
           (str "GET /x") (str "ld HTTP/1.1" ++ [CR]) 4).
  - vm_compute. lia.
  - by_evaluation.
  - intros i Hi. simpl in Hi.
    do 12 (destruct i as [|i]; [reflexivity|]). lia.
  - reflexivity.
Defined.

Lemma get_request_unterminated_witness :
  get_request true (λ _, SP) (Some (str "GET /x HTTP/1.1" ++ CRLF)) 4
  = Undefined ReadPastObject.
Proof.
  apply (get_request_unterminated (λ _, SP)
           (str "GET /x HTTP/1.1" ++ CRLF) 4).
  - by_evaluation.
  - intros i. discriminate.
Defined.

(** ** More on the header lookup *)

(** X9.  Decoding, looking up and copying compose: for a decoded request,
    a lookup of a name of its header lines into a buffer with room fills the
    start of the buffer with a string that reads back as the value of the
    last line of that name, returns that value, and leaves the rest of the
    buffer and its size alone; a lookup of any other key leaves the whole
    buffer alone. *)
Theorem copied_value_reads_back (method target version : bytes)
    (hs hs' : list (bytes * bytes)) (name value buf junk : bytes) (fd : Z) :
  token SP method → token SP target → token CR version →
  Forall splits (hs ++ (name, value) :: hs') →
  NUL ∉ request_line method target version
        ++ header_lines (hs ++ (name, value) :: hs') →
  name ∉ hs'.*1 →
  (length value < length buf)%nat →
  ∃ req buf',
    parse_request true
      (Some (request_line method target version
             ++ header_lines (hs ++ (name, value) :: hs') ++ NUL :: junk)) fd
      = Ret (Some req)
    ∧ get_request_header (Some req) (Some name) (Some buf)
      = Ret (Some value, Some buf')
    ∧ c_str buf' = Ret value
    ∧ length buf' = length buf
    ∧ drop (S (length value)) buf' = drop (S (length value)) buf
    ∧ ∀ key, key ∉ (hs ++ (name, value) :: hs').*1 →
             get_request_header (Some req) (Some key) (Some buf)
             = Ret (None, Some buf).
Proof.
  intros Hm Ht Hv Hhs Hnul Hname Hroom.
  pose proof (decode_wire_format method target version
                (hs ++ (name, value) :: hs') [] junk fd Hm Ht Hv Hhs)
    as Hdec.
  rewrite app_nil_r, app_nil_l in Hdec.
  assert (NUL ∉ value) as Hvalue.
  { revert Hnul. rewrite header_lines_app, header_lines_cons. simpl.
    rewrite !not_elem_of_app, !not_elem_of_cons, !not_elem_of_app. tauto. }
  eexists _, (value ++ NUL :: drop (S (length value)) buf).
  split; [apply Hdec; [apply not_elem_of_nil|done]|].
  unfold get_request_header, g_hash_table_lookup, strcpy.
  cbn [header_htab mbind option_bind].
  split_and!.
  - rewrite inserted_lookup_last by done.
    by rewrite bool_decide_eq_true_2.
  - by apply c_str_terminated.
  - rewrite length_app, length_cons, length_drop. lia.
  - rewrite drop_app_ge by lia.
    by replace (S (length value) - length value)%nat with 1%nat by lia.
  - intros key Hkey.
    assert (inserted (hs ++ (name, value) :: hs') ∅ !! key = None) as ->;
      [|done].
    apply inserted_lookup_None. split; [done|apply lookup_empty].
Qed.

Lemma copied_value_reads_back_witness :
  ∃ req buf',
    parse_request true
      (Some (request_line (str "GET") (str "/x") (str "HTTP/1.1")
             ++ header_lines ([(str "Host", str "a")]
                              ++ (str "Host", str "b") :: [])
             ++ NUL :: [])) 4
      = Ret (Some req)
    ∧ get_request_header (Some req) (Some (str "Host")) (Some (str "????"))
      = Ret (Some (str "b"), Some buf')
    ∧ c_str buf' = Ret (str "b")
    ∧ length buf' = length (str "????")
    ∧ drop (S (length (str "b"))) buf'
      = drop (S (length (str "b"))) (str "????")
    ∧ ∀ key, key ∉ ([(str "Host", str "a")]
                    ++ (str "Host", str "b") :: []).*1 →
             get_request_header (Some req) (Some key) (Some (str "????"))
             = Ret (None, Some (str "????")).
Proof.
  apply (copied_value_reads_back (str "GET") (str "/x") (str "HTTP/1.1")
           [(str "Host", str "a")] [] (str "Host") (str "b") (str "????")
           [] 4); by_evaluation.
Defined.

(** ** More on releasing *)

Lemma parse_headers_some (fuel : nat) (save : bytes) (tab : gmap bytes bytes) :
  ∃ tab', parse_headers fuel save (Some tab) = Some tab'.
Proof.
  revert save tab. induction fuel as [|fuel IH]; intros save tab;
    cbn [parse_headers]; [by eexists|].
  destruct (strtok None [COLON] save) as [[key|] save1]; [|by eexists].
  destruct (strtok None [CR] save1) as [[val|] save2]; [|by eexists].
  apply IH.
Qed.

Lemma parse_request_fields (ok : bool) (mem : bytes) (fd : Z) (r : request) :
  parse_request ok (Some mem) fd = Ret (Some r) →
  ∃ method target version tab,
    r = {| conn_fd := fd; http_method := Some (Heap method);
           url := Some (Heap target); http_ver := Some (Heap version);
           header_htab := Some tab |}.
Proof.
  unfold parse_request, _initialize_request, _parse_request.
  destruct ok; [|done].
  destruct (strdup_mem _) as [req_buff|]; [|done]. cbn [mbind outcome_bind].
  destruct (strtok (Some req_buff) [SP] []) as [[tok1|] save1]; [|done].
  cbn [strdup mbind outcome_bind].
  destruct (strtok None [SP] save1) as [[tok2|] save2]; [|done].
  cbn [strdup mbind outcome_bind].
  destruct (strtok None [CR] save2) as [[tok3|] save3] eqn:H3; [|done].
  cbn [strdup mbind outcome_bind header_htab].
  destruct (parse_headers_some (S (length save3)) save3 ∅) as (tab & Htab).
  rewrite Htab. intros [= <-]. by eexists _, _, _, _.
Qed.

(** X10.  Closing a request that decoding returned takes back all that
    decoding made, once each and in this order: the connection is closed,
    unless the request was decoded for the handle -1 that stands for no
    connection, then the table, the method, the target, the version and
    the request itself are freed. *)
Theorem close_after_decode (ok : bool) (mem : bytes) (fd : Z) (r : request) :
  parse_request ok (Some mem) fd = Ret (Some r) →
  ∃ method target version tab,
    http_method r = Some (Heap method) ∧ url r = Some (Heap target)
    ∧ http_ver r = Some (Heap version) ∧ header_htab r = Some tab
    ∧ close_request (Some r)
      = Done () ((if bool_decide (fd ≠ -1) then [EvClose fd] else [])
                 ++ [EvFree (BTable tab); EvFree (BString (Heap method));
                     EvFree (BString (Heap target));
                     EvFree (BString (Heap version)); EvFree BRequest]).
Proof.
  intros Hdec.
  apply parse_request_fields in Hdec as (m & t & v & tab & ->).
  exists m, t, v, tab. split_and!; try done.
  unfold close_request, _free_request. step. by case_bool_decide.
Qed.

Lemma close_after_decode_witness :
  ∃ method target version tab,
    http_method {| conn_fd := 4;
                   http_method := Some (Heap (str "GET"));
                   url := Some (Heap (str "/x"));
                   http_ver := Some (Heap (str "HTTP/1.1"));
                   header_htab := Some {[ str "Host" := str "a" ]} |}
    = Some (Heap method)
    ∧ url {| conn_fd := 4;
             http_method := Some (Heap (str "GET"));
             url := Some (Heap (str "/x"));
             http_ver := Some (Heap (str "HTTP/1.1"));
             header_htab := Some {[ str "Host" := str "a" ]} |}
      = Some (Heap target)
    ∧ http_ver {| conn_fd := 4;
                  http_method := Some (Heap (str "GET"));
                  url := Some (Heap (str "/x"));
                  http_ver := Some (Heap (str "HTTP/1.1"));
                  header_htab := Some {[ str "Host" := str "a" ]} |}
      = Some (Heap version)
    ∧ header_htab {| conn_fd := 4;
                     http_method := Some (Heap (str "GET"));
                     url := Some (Heap (str "/x"));
                     http_ver := Some (Heap (str "HTTP/1.1"));
                     header_htab := Some {[ str "Host" := str "a" ]} |}
      = Some tab
    ∧ close_request
        (Some {| conn_fd := 4;
                 http_method := Some (Heap (str "GET"));
                 url := Some (Heap (str "/x"));
                 http_ver := Some (Heap (str "HTTP/1.1"));
                 header_htab := Some {[ str "Host" := str "a" ]} |})
      = Done () ((if bool_decide (4 ≠ -1) then [EvClose 4] else [])
                 ++ [EvFree (BTable tab); EvFree (BString (Heap method));
                     EvFree (BString (Heap target));
                     EvFree (BString (Heap version)); EvFree BRequest]).
Proof.
  apply (close_after_decode true wire_example 4). vm_compute. reflexivity.
Defined.

(** X11.  [clean_request] takes any mix of present and absent components:
    it closes the stream once if there is one, closes the connection of the
    request once if there is a request and its handle is not -1, frees the
    request once if there is one, releases the response once if there is
    one, and sends nothing; with nothing given it does nothing, and it
    never faults. *)
Theorem cleanup_releases_each_once (file : option FILE) (req : option request)
    (res : option response) :
  ∃ events,
    clean_request file req res = Done () events
    ∧ (∀ f, times (EvFclose f) events
            = if bool_decide (file = Some f) then 1%nat else O)
    ∧ (∀ fd, times (EvClose fd) events
             = match req with
               | Some r => if bool_decide (fd = conn_fd r ∧ fd ≠ -1)
                           then 1%nat else O
               | None => O
               end)
    ∧ times (EvFree BRequest) events = (if req is Some _ then 1%nat else O)
    ∧ times (EvFree BResponse) events = (if res is Some _ then 1%nat else O)
    ∧ (∀ fd data, times (EvSend fd data) events = O)
    ∧ (file = None → req = None → res = None → events = []).
Proof.
  destruct req as [r|].
  - destruct (clean_request_once file r res)
      as (ev & Hev & Hclose & Hfclose & Hfree & Hres & _ & Hsend & _).
    by exists ev.
  - unfold clean_request, close_response.
    destruct file as [f'|], res as [res|]; step;
      (eexists; split; [reflexivity|]); split_and!; intros;
      repeat case_bool_decide; simplify_eq; count_events;
      try done; naive_solver.
Qed.

(** ** More on the worker *)

(** X12.  The worker ends in one of four ways, decided by what
    [get_request] returns and by the length of the path: a fault of
    [get_request] is the fault of the worker; without a request the worker
    reads through the null pointer; with a request whose resolved path does
    not fit [file_path] it writes past that array; and with a request whose
    path fits it comes to its end, whether the file can be opened or not.
    In the first two cases only the cell of the handle has been freed. *)
Theorem worker_outcomes (w : world) (fd : Z) :
  match get_request (malloc_ok w) (garbage w) (rx w) fd with
  | Undefined f => handle_request w fd = Fault f [EvFree BConnArg]
  | Ret None => handle_request w fd = Fault NullDereference [EvFree BConnArg]
  | Ret (Some r) =>
      ∃ target,
        url r = Some (Heap target)
        ∧ if bool_decide (Z.of_nat (length (resolved w target))
                          < FILE_PATH_BUF_SIZE)
          then ∃ events, handle_request w fd = Done () events
          else ∃ events, handle_request w fd = Fault WritePastObject events
  end.
Proof.
  unfold handle_request. step.
  destruct (get_request _ _ _ _) as [[r|]|] eqn:Hreq; step; [|done|done].
  apply get_request_fields in Hreq as (<- & m & t & v & Hm & Ht & Hv).
  exists t. split; [done|]. rewrite Ht. step. unfold resolved.
  destruct (streq t (str "/")) eqn:Hroot; step; rewrite Hm, ?Ht, Hv; step;
    unfold sprintf2; step; case_bool_decide; step; try (by eexists);
    (destruct (fopen w _) as [file|] eqn:Hopen;
     [unfold send_response_header, send_response_file, send_all;
      repeat (case_bool_decide; step)|]);
    (match goal with
     | |- context [clean_request ?f (Some ?r') ?res] =>
         destruct (clean_request_once f r' res) as (ev & Hev & _);
         rewrite Hev
     end);
    step; by eexists.
Qed.

Lemma finished_worker_released_once_witness :
  times (EvClose 4)
    (events_of (handle_request
                  (example_world (Some (str "GET / HTTP/1.1" ++ CRLF ++ CRLF)))
                  4)) = 1%nat
  ∧ times (EvFree BRequest)
      (events_of (handle_request
                    (example_world (Some (str "GET / HTTP/1.1" ++ CRLF ++ CRLF)))
                    4)) = 1%nat
  ∧ times (EvFree BConnArg)
      (events_of (handle_request
                    (example_world (Some (str "GET / HTTP/1.1" ++ CRLF ++ CRLF)))
                    4)) = 1%nat
  ∧ ∃ path,
      times (EvFopen path)
        (events_of (handle_request
                      (example_world
                         (Some (str "GET / HTTP/1.1" ++ CRLF ++ CRLF))) 4))
      = 1%nat
      ∧ (∀ f, times (EvFclose f)
                (events_of (handle_request
                              (example_world
                                 (Some (str "GET / HTTP/1.1" ++ CRLF ++ CRLF)))
                              4))
              = if bool_decide
                     (fopen (example_world
                               (Some (str "GET / HTTP/1.1" ++ CRLF ++ CRLF)))
                        path = Some f)
                then 1%nat else O)
      ∧ times (EvFree BResponse)
          (events_of (handle_request
                        (example_world
                           (Some (str "GET / HTTP/1.1" ++ CRLF ++ CRLF))) 4))
        = (if fopen (example_world
                       (Some (str "GET / HTTP/1.1" ++ CRLF ++ CRLF))) path
           is Some _ then 1%nat else O).
Proof.
  apply (finished_worker_released_once
           (example_world (Some (str "GET / HTTP/1.1" ++ CRLF ++ CRLF))) 4).
  - discriminate.
  - vm_compute. reflexivity.
Defined.

Lemma worker_resolves_target_witness :
  ∃ events,
    handle_request
      (example_world (Some (str "GET /missing HTTP/1.1" ++ CRLF ++ CRLF))) 4
    = Done () events
    ∧ times (EvFopen
               (resolved
                  (example_world
                     (Some (str "GET /missing HTTP/1.1" ++ CRLF ++ CRLF)))
                  (chars (Heap (str "/missing"))))) events = 1%nat
    ∧ (fopen (example_world
                (Some (str "GET /missing HTTP/1.1" ++ CRLF ++ CRLF)))
         (resolved
            (example_world
               (Some (str "GET /missing HTTP/1.1" ++ CRLF ++ CRLF)))
            (chars (Heap (str "/missing")))) = None →
       4 ≠ -1 →
       times (EvClose 4) events = 1%nat
       ∧ ∀ fd' data, times (EvSend fd' data) events = O).
Proof.
  apply (worker_resolves_target
           (example_world (Some (str "GET /missing HTTP/1.1" ++ CRLF ++ CRLF)))
           4
           {| conn_fd := 4;
              http_method := Some (Heap (str "GET"));
              url := Some (Heap (str "/missing"));
              http_ver := Some (Heap (str "HTTP/1.1"));
              header_htab := Some ∅ |}
           (Heap (str "/missing"))).
  - vm_compute. reflexivity.
  - reflexivity.
  - vm_compute. reflexivity.
Defined.

Lemma root_target_frees_page_witness :
  EvFree (BString (Conf (str "/index.html")))
  ∈ events_of (handle_request
                 (example_world (Some (str "GET / HTTP/1.1" ++ CRLF ++ CRLF)))
                 4).
Proof.
  apply (root_target_frees_page
           (example_world (Some (str "GET / HTTP/1.1" ++ CRLF ++ CRLF))) 4
           {| conn_fd := 4;
              http_method := Some (Heap (str "GET"));
              url := Some (Heap (str "/"));
              http_ver := Some (Heap (str "HTTP/1.1"));
              header_htab := Some ∅ |}).
  - vm_compute. reflexivity.
  - reflexivity.
  - vm_compute. reflexivity.
Defined.

(** ** More on the accept loop *)

Lemma events_of_bind {A B} (m : run A) (k : A → run B) :
  events_of (m ≫= k)
  = events_of m ++ match m with
                   | Done a _ => events_of (k a)
                   | Fault _ _ => []
                   end.
Proof.
  destruct m as [a ev|f ev]; cbn [mbind run_bind events_of].
  - by destruct (k a).
  - by rewrite app_nil_r.
Qed.

Lemma quiet_round (r : round) :
  0 ≤ pthread_create_ret r →
  (∀ fd, times (EvClose fd) (events_of (accept_round r)) = O)
  ∧ times (EvFree BConnArg) (events_of (accept_round r)) = O
  ∧ times (EvPerror (str "Unable to create new thread"))
      (events_of (accept_round r)) = O.
Proof.
  intros Hthr. unfold accept_round, pthread_create, pthread_detach.
  destruct (accept_ret r <? 0); [split_and!; intros; by count_events|].
  destruct (cell_ok r); step; [|done].
  destruct (pthread_create_ret r =? 0) eqn:Hzero; step;
    rewrite (proj2 (Z.ltb_ge _ _) Hthr); step; [|done].
  destruct (pthread_detach_ret r =? 0); step;
    split_and!; intros; by count_events.
Qed.

(** X16.  The accept loop closes no connection and frees no cell itself as
    long as [pthread_create] keeps to its contract and returns zero or a
    positive error number: the branch that logs a failed start, closes the
    connection and frees the cell is never taken, whatever the rounds
    bring. *)
Theorem accept_loop_never_closes (rounds : list round) :
  Forall (λ r, 0 ≤ pthread_create_ret r) rounds →
  (∀ fd, times (EvClose fd) (events_of (accept_loop rounds)) = O)
  ∧ times (EvFree BConnArg) (events_of (accept_loop rounds)) = O
  ∧ times (EvPerror (str "Unable to create new thread"))
      (events_of (accept_loop rounds)) = O.
Proof.
  induction 1 as [|r rounds Hr Hrounds (IH1 & IH2 & IH3)]; [done|].
  cbn [accept_loop]. rewrite events_of_bind.
  destruct (quiet_round r Hr) as (H1 & H2 & H3).
  destruct (accept_round r) as [[] ev|f ev]; cbn [events_of] in *;
    split_and!; intros; count_events; rewrite ?H1, ?H2, ?H3, ?IH1, ?IH2, ?IH3;
    done.
Qed.

Lemma accept_loop_never_closes_witness :
  (∀ fd, times (EvClose fd)
           (events_of (accept_loop
                         [ {| accept_ret := 5; cell_ok := true;
                              pthread_create_ret := 0;
                              pthread_detach_ret := 0 |};
                           {| accept_ret := 6; cell_ok := true;
                              pthread_create_ret := 11;
                              pthread_detach_ret := 0 |} ])) = O)
  ∧ times (EvFree BConnArg)
      (events_of (accept_loop
                    [ {| accept_ret := 5; cell_ok := true;
                         pthread_create_ret := 0; pthread_detach_ret := 0 |};
                      {| accept_ret := 6; cell_ok := true;
                         pthread_create_ret := 11;
                         pthread_detach_ret := 0 |} ])) = O
  ∧ times (EvPerror (str "Unable to create new thread"))
      (events_of (accept_loop
                    [ {| accept_ret := 5; cell_ok := true;
                         pthread_create_ret := 0; pthread_detach_ret := 0 |};
                      {| accept_ret := 6; cell_ok := true;
                         pthread_create_ret := 11;
                         pthread_detach_ret := 0 |} ])) = O.
Proof.
  apply (accept_loop_never_closes
           [ {| accept_ret := 5; cell_ok := true;
                pthread_create_ret := 0; pthread_detach_ret := 0 |};
             {| accept_ret := 6; cell_ok := true;
                pthread_create_ret := 11; pthread_detach_ret := 0 |} ]).
  by_evaluation.
Defined.

Lemma threads_app (l k : list event) : threads (l ++ k) = threads l ++ threads k.
Proof. apply omap_app. Qed.

Lemma good_round (r : round) :
  accept_ret r < 0
  ∨ (0 ≤ accept_ret r ∧ cell_ok r = true ∧ pthread_create_ret r = 0) →
  ∃ events,
    accept_round r = Done () events
    ∧ threads events = (if bool_decide (0 ≤ accept_ret r)
                        then [accept_ret r] else [])
    ∧ ∀ fd, times (EvClose fd) events = O.
Proof.
  intros [Hacc|(Hacc & Hcell & Hthr)].
  - rewrite accept_failure_retries by done.
    rewrite bool_decide_eq_false_2 by lia.
    eexists; split_and!; [done..|]. intros; by count_events.
  - unfold accept_round, pthread_create, pthread_detach.
    rewrite (proj2 (Z.ltb_ge _ _) Hacc), Hcell, Hthr. step. simpl.
    rewrite bool_decide_eq_true_2 by done.
    destruct (pthread_detach_ret r =? 0); step;
      (eexists; split_and!; [done..|]); intros; by count_events.
Qed.

(** X17.  One worker per accepted connection, in the order of arrival: over
    any rounds in which [accept] fails or the worker is started (detaching
    may fail), the loop is back at [accept] at the end, the workers started
    are exactly those for the handles that [accept] returned, one each and
    in that order, and the loop itself has closed none of these
    connections. *)
Theorem workers_in_order (rounds : list round) :
  Forall (λ r, accept_ret r < 0
               ∨ (0 ≤ accept_ret r ∧ cell_ok r = true
                  ∧ pthread_create_ret r = 0)) rounds →
  ∃ events,
    accept_loop rounds = Done () events
    ∧ threads events = accept_ret <$> filter (λ r, 0 ≤ accept_ret r) rounds
    ∧ ∀ fd, times (EvClose fd) events = O.
Proof.
  induction 1 as [|r rounds Hr Hrounds (events & IH & Hthreads & Hclose)].
  { exists []. split_and!; done. }
  destruct (good_round r Hr) as (ev & Hev & Hone & Hnone).
  cbn [accept_loop]. rewrite Hev, IH. step.
  eexists; split_and!; [done| |].
  - rewrite threads_app, Hone, Hthreads.
    case_bool_decide.
    + by rewrite filter_cons_True.
    + by rewrite filter_cons_False.
  - intros fd. by rewrite times_app, Hnone, Hclose.
Qed.

Lemma workers_in_order_witness :
  ∃ events,
    accept_loop
      [ {| accept_ret := -1; cell_ok := true;
           pthread_create_ret := 0; pthread_detach_ret := 0 |};
        {| accept_ret := 5; cell_ok := true;
           pthread_create_ret := 0; pthread_detach_ret := 22 |};
        {| accept_ret := 6; cell_ok := true;
           pthread_create_ret := 0; pthread_detach_ret := 0 |} ]
    = Done () events
    ∧ threads events = [5; 6]
    ∧ ∀ fd, times (EvClose fd) events = O.
Proof.
  apply (workers_in_order
           [ {| accept_ret := -1; cell_ok := true;
                pthread_create_ret := 0; pthread_detach_ret := 0 |};
             {| accept_ret := 5; cell_ok := true;
                pthread_create_ret := 0; pthread_detach_ret := 22 |};
             {| accept_ret := 6; cell_ok := true;
                pthread_create_ret := 0; pthread_detach_ret := 0 |} ]).
  by_evaluation.
Defined.

(** ** The start and the end of the server *)


